(** * Scripts/zst_to_csv_with_score_filtering_json.py

    A shallow embedding of [process_pushshift_zst] and of the script's
    entry point, together with the properties its specification states.

    The script streams a zstd-compressed archive of newline-delimited
    JSON, keeps the records of one subreddit whose score exceeds a
    threshold and whose body is long enough, and writes one JSON object
    per kept record.

    Layout of the development:
    - Python data: byte strings, text strings, exceptions, JSON values;
    - the library calls the script makes ([bytes.split], [bytes.strip],
      [str.strip], [dict.get], comparisons, [json.dumps], the UTF-8
      codec, [json.loads]);
    - control flow: a small state-and-completion monad with [continue],
      exceptions, [try]/[except] and [for];
    - the script itself;
    - the properties. *)

From Stdlib Require Import ZArith NArith Lia List Bool.
From Stdlib Require Import Strings.Byte Strings.Ascii Strings.String.
From stdpp Require Import base option list gmap strings.

Set Warnings "-register-all".

(** ** Python data *)

(** A [bytes] object is a sequence of bytes; a [str] is a sequence of
    Unicode code points (Python allows lone surrogates in a [str], so a
    code point is any number below [0x110000]). *)
Abbreviation bytes := (list byte).
Abbreviation str := (list N).

(** ASCII literals: [b"..."] and ["..."] of the source. *)
Definition bstr (s : string) : bytes := list_byte_of_string s.
Definition ustr (s : string) : str := map Byte.to_N (list_byte_of_string s).

(** The exception classes that can reach the script. *)
Inductive exn :=
| JSONDecodeError | UnicodeDecodeError | UnicodeEncodeError | ValueError
| RecursionError | AttributeError | TypeError | IndexError | ZstdError.

#[global] Instance exn_eq_dec : EqDecision exn.
Proof. solve_decision. Defined.

(** A Python [float], as far as the script can observe one: it only
    compares a score with the integer threshold, so a finite float is
    kept as the dyadic rational [m * 2^e] it denotes (the sign of zero is
    not observable here). *)
Inductive pyfloat :=
| FNaN
| FInf (negative : bool)
| FFinite (m e : Z).

(** What [json.loads] can return. *)
Inductive value :=
| PyNone
| PyBool (b : bool)
| PyInt (n : Z)
| PyFloat (f : pyfloat)
| PyStr (s : str)
| PyList (l : list value)
| PyDict (d : gmap str value).

(** The [result] dictionary of the script always has the single key
    ['body'], bound to a [str]. *)
Record OutputRecord := { body : str }.

(** ** Control flow *)

(** How a block of statements ends: it runs to its end, it executes
    [continue], or it raises. *)
Inductive completion (A : Type) :=
| Normal (a : A)
| Continue
| Raise (e : exn).
Arguments Normal {A} a.
Arguments Continue {A}.
Arguments Raise {A} e.

#[global] Instance completion_ret : MRet completion := λ A a, Normal a.
#[global] Instance completion_bind : MBind completion :=
  λ A B k c,
    match c with
    | Normal a => k a
    | Continue => Continue
    | Raise e => Raise e
    end.

(** A block that may update a state of type [S]. *)
Definition action (S A : Type) : Type := S → S * completion A.

#[global] Instance action_ret {S} : MRet (action S) :=
  λ A a s, (s, Normal a).
#[global] Instance action_bind {S} : MBind (action S) :=
  λ A B k m s,
    match m s with
    | (s', Normal a) => k a s'
    | (s', Continue) => (s', Continue)
    | (s', Raise e) => (s', Raise e)
    end.

Definition continue {S A} : action S A := λ s, (s, Continue).
Definition raise {S A} (e : exn) : action S A := λ s, (s, Raise e).
Definition lift {S A} (c : completion A) : action S A := λ s, (s, c).

(** [try: body  except cls: handler] *)
Definition try_except {S A} (body : action S A) (cls : exn)
    (handler : action S A) : action S A :=
  λ s, match body s with
       | (s', Raise e) => if decide (e = cls) then handler s' else (s', Raise e)
       | r => r
       end.

(** [for x in xs: body x].  A [continue] in the body ends the current
    iteration only; an exception leaves the loop. *)
Fixpoint for_in {S X} (xs : list X) (body : X → action S unit) : action S unit :=
  λ s, match xs with
       | [] => (s, Normal tt)
       | x :: xs' =>
           match body x s with
           | (s', Raise e) => (s', Raise e)
           | (s', _) => for_in xs' body s'
           end
       end.

(** ** Library calls on byte strings *)

(** [s.split(sep)] for a one-byte separator: never the empty list. *)
Fixpoint bytes_split (sep : byte) (s : bytes) : list bytes :=
  match s with
  | [] => [[]]
  | b :: s' =>
      if Byte.eqb b sep then [] :: bytes_split sep s'
      else match bytes_split sep s' with
           | seg :: segs => (b :: seg) :: segs
           | [] => [[b]]
           end
  end.

(** ASCII whitespace, as [bytes.strip()] understands it. *)
Definition bytes_isspace (b : byte) : bool :=
  match b with
  | x09 | x0a | x0b | x0c | x0d | x20 => true
  | _ => false
  end.

Fixpoint drop_while {A} (p : A → bool) (s : list A) : list A :=
  match s with
  | [] => []
  | x :: s' => if p x then drop_while p s' else s
  end.

(** Removal of the leading and trailing characters of a class. *)
Definition strip_with {A} (space : A → bool) (s : list A) : list A :=
  rev (drop_while space (rev (drop_while space s))).

Definition bytes_strip (s : bytes) : bytes := strip_with bytes_isspace s.

(** [lines.pop()]: the last element and the list without it; [IndexError]
    on the empty list. *)
Definition list_pop {S A} (l : list A) : action S (A * list A) :=
  match last l with
  | Some x => mret (x, removelast l)
  | None => raise IndexError
  end.

(** ** Stream decoding (source lines 14-20) *)

(** What one call of [stream_reader.read(2**20)] does: it returns a
    chunk, or the decompressor raises. *)
Inductive read_result :=
| ReadReturns (chunk : bytes)
| ReadRaises.

(** The loop [for chunk in iter(lambda: stream_reader.read(2**20), b)]
    (with [b] the empty byte string) and its body, for an arbitrary body
    [each_line] of the inner [for line in lines].  [reads] lists the
    results of the successive calls of [read]; once the list is used up
    the reader is at the end of the stream and [read] returns the empty
    byte string, the sentinel of [iter]. *)
Fixpoint read_loop {S} (reads : list read_result) (buffer : bytes)
    (each_line : bytes → action S unit) : action S unit :=
  match reads with
  | [] => mret tt
  | ReadRaises :: _ => raise ZstdError
  | ReadReturns [] :: _ => mret tt
  | ReadReturns chunk :: reads' =>
      let buffer := buffer ++ chunk in
      let lines := bytes_split x0a buffer in
      '(buffer, lines) ← list_pop lines;
      for_in lines each_line;;
      read_loop reads' buffer each_line
  end.

(** ** Library calls on text strings *)

(** [str.isspace] on one code point: the characters [str.strip()]
    removes. *)
Definition str_isspace (c : N) : bool :=
  ((9 <=? c) && (c <=? 13) || (28 <=? c) && (c <=? 32)
   || (c =? 133) || (c =? 160) || (c =? 5760)
   || (8192 <=? c) && (c <=? 8202)
   || (c =? 8232) || (c =? 8233) || (c =? 8239) || (c =? 8287)
   || (c =? 12288))%N.

Definition str_strip (s : str) : str := strip_with str_isspace s.

Fixpoint is_prefix (p s : str) : bool :=
  match p, s with
  | [], _ => true
  | c :: p', d :: s' => (c =? d)%N && is_prefix p' s'
  | _ :: _, [] => false
  end.

(** [p in s] for two strings. *)
Fixpoint is_substring (p s : str) : bool :=
  is_prefix p s || match s with [] => false | _ :: s' => is_substring p s' end.

(** The escaping [json.dumps] applies with its default
    [ensure_ascii=True]. *)
Definition hex_digit (d : N) : N :=
  (if d <? 10 then 48 + d else 87 + d)%N.

Definition u_escape (c : N) : str :=
  [92; 117; hex_digit (N.land (N.shiftr c 12) 15);
   hex_digit (N.land (N.shiftr c 8) 15);
   hex_digit (N.land (N.shiftr c 4) 15); hex_digit (N.land c 15)]%N.

Definition ascii_escape_unichar (c : N) : str :=
  (if c =? 34 then [92; 34]
   else if c =? 92 then [92; 92]
   else if c =? 10 then [92; 110]
   else if c =? 13 then [92; 114]
   else if c =? 9 then [92; 116]
   else if c =? 8 then [92; 98]
   else if c =? 12 then [92; 102]
   else if (32 <=? c) && (c <=? 126) then [c]
   else if c <? 65536 then u_escape c
   else let v := c - 65536 in
        u_escape (N.lor 55296 (N.land (N.shiftr v 10) 1023))
        ++ u_escape (N.lor 56320 (N.land v 1023)))%N.

Definition encode_basestring_ascii (s : str) : str :=
  [34%N] ++ flat_map ascii_escape_unichar s ++ [34%N].

(** [json.dumps(result)] with the default separators. *)
Definition json_dumps (result : OutputRecord) : str :=
  ustr "{" ++ encode_basestring_ascii (ustr "body") ++ ustr ": "
  ++ encode_basestring_ascii (body result) ++ ustr "}".

(** The strict UTF-8 encoder of a text file opened with
    [encoding='utf-8']: surrogates cannot be encoded. *)
Definition byte_of_N (n : N) : byte := default x00 (Byte.of_N n).

Definition utf8_encode_char (c : N) : option bytes :=
  (if c <? 128 then Some [byte_of_N c]
   else if c <? 2048 then
     Some [byte_of_N (N.lor 192 (N.shiftr c 6)); byte_of_N (N.lor 128 (N.land c 63))]
   else if (55296 <=? c) && (c <=? 57343) then None
   else if c <? 65536 then
     Some [byte_of_N (N.lor 224 (N.shiftr c 12));
           byte_of_N (N.lor 128 (N.land (N.shiftr c 6) 63));
           byte_of_N (N.lor 128 (N.land c 63))]
   else if c <? 1114112 then
     Some [byte_of_N (N.lor 240 (N.shiftr c 18));
           byte_of_N (N.lor 128 (N.land (N.shiftr c 12) 63));
           byte_of_N (N.lor 128 (N.land (N.shiftr c 6) 63));
           byte_of_N (N.lor 128 (N.land c 63))]
   else None)%N.

Fixpoint utf8_encode (s : str) : option bytes :=
  match s with
  | [] => Some []
  | c :: s' => b ← utf8_encode_char c; bs ← utf8_encode s'; Some (b ++ bs)
  end.

(** ** Operations on Python values *)

(** [post.get(key, dflt)]: only a [dict] has the method. *)
Definition py_get (post : value) (key : str) (dflt : value) : completion value :=
  match post with
  | PyDict d => Normal (default dflt (d !! key))
  | _ => Raise AttributeError
  end.

(** [v == s] for a [str] [s]: a value of another type is never equal to
    a string. *)
Definition py_eq_str (v : value) (s : str) : bool :=
  match v with
  | PyStr t => bool_decide (t = s)
  | _ => false
  end.

(** [f <= t] for a float and an integer; Python compares the exact
    values, and every comparison with NaN is false. *)
Definition float_le_int (f : pyfloat) (t : Z) : bool :=
  match f with
  | FNaN => false
  | FInf negative => negative
  | FFinite m e => if (0 <=? e)%Z then (m * 2 ^ e <=? t)%Z else (m <=? t * 2 ^ (- e))%Z
  end.

(** [v <= t] for an integer [t]: defined on numbers ([bool] is a
    subclass of [int]), [TypeError] otherwise. *)
Definition py_le_int (v : value) (t : Z) : completion bool :=
  match v with
  | PyBool b => Normal (Z.b2z b <=? t)%Z
  | PyInt n => Normal (n <=? t)%Z
  | PyFloat f => Normal (float_le_int f t)
  | PyNone | PyStr _ | PyList _ | PyDict _ => Raise TypeError
  end.

(** [v.strip()]: only a [str] has the method (of the values JSON has). *)
Definition py_strip (v : value) : completion str :=
  match v with
  | PyStr s => Normal (str_strip s)
  | _ => Raise AttributeError
  end.

(** [key in v] for a [str] [key]. *)
Definition py_in (key : str) (v : value) : completion bool :=
  match v with
  | PyDict d => Normal (bool_decide (is_Some (d !! key)))
  | PyList l => Normal (existsb (λ x, py_eq_str x key) l)
  | PyStr s => Normal (is_substring key s)
  | PyNone | PyBool _ | PyInt _ | PyFloat _ => Raise TypeError
  end.

(** ** The world the script runs in *)

(** Regular files by path, and what has been printed.  A path names at
    most one file; directories, permissions and the other ways in which
    the operating system can refuse to open a file are not modelled. *)
Record world := World { files : gmap string bytes; stdout : list string }.

Definition os_path_isfile (path : string) : action world bool :=
  λ w, (w, Normal (bool_decide (is_Some (files w !! path)))).

(** What a file opened with [open(path, 'rb')] delivers once it is read. *)
Definition file_content (path : string) : action world bytes :=
  λ w, (w, Normal (default [] (files w !! path))).

Definition print (line : string) : action world unit :=
  λ w, (World (files w) (stdout w ++ [line]), Normal tt).

(** [open(path, 'w', encoding='utf-8')] creates the file or truncates
    it. *)
Definition open_w (path : string) : action world unit :=
  λ w, (World (<[path := []]> (files w)) (stdout w), Normal tt).

(** [out_file.write(text)] on the file opened at [path]: the text is
    encoded and appended (newlines are written as they are, as on POSIX
    systems). *)
Definition file_write (path : string) (text : str) : action world unit :=
  match utf8_encode text with
  | Some data => λ w, (World (alter (λ old, old ++ data) path (files w)) (stdout w), Normal tt)
  | None => raise UnicodeEncodeError
  end.

(** ** The script *)

(** Source lines 25-47: the tests on a parsed line and the construction
    of [result].  This block touches neither file, so it is written in the
    pure [completion] monad; [Continue] is the [continue] of the source. *)
Definition normalize (subreddit_filter : str) (score_threshold : Z)
    (post : value) : completion OutputRecord :=
  subreddit ← py_get post (ustr "subreddit") PyNone;
  if negb (py_eq_str subreddit subreddit_filter) then Continue
  else
    score ← py_get post (ustr "score") (PyInt 0);
    too_low ← py_le_int score score_threshold;
    if (too_low : bool) then Continue
    else
      text ← py_get post (ustr "body") (PyStr []) ≫= py_strip;
      if (length (text : str) <? 120)%nat then Continue
      else
        has_title ← py_in (ustr "title") post;
        if (has_title : bool) then
          title ← py_get post (ustr "title") (PyStr []) ≫= py_strip;
          body ← py_get post (ustr "selftext") (PyStr []) ≫= py_strip;
          Normal {| body := title ++ ustr " " ++ body |}
        else
          body ← py_get post (ustr "body") (PyStr []) ≫= py_strip;
          Normal {| body := body |}.

Section Script.
(** Two library calls are left open: [json.loads] on a line, which
    returns a value or raises, and the results of the successive calls of
    [stream_reader.read(2**20)] on a compressed file with the given
    content.  [Json.loads] below is CPython's [json.loads]. *)
Variable json_loads : bytes → completion value.
Variable stream_reads : bytes → list read_result.

(** The body of [for line in lines] (source lines 21-52); [out_file]
    is the path the output file was opened at. *)
Definition process_line (out_file : string) (subreddit_filter : str)
    (score_threshold : Z) (line : bytes) : action world unit :=
  if bool_decide (bytes_strip line = []) then continue
  else
    try_except
      (post ← lift (json_loads line);
       result ← lift (normalize subreddit_filter score_threshold post);
       file_write out_file (json_dumps result ++ [10%N]))
      JSONDecodeError
      continue.

(** [process_pushshift_zst] (source lines 6-52).  Both files are opened
    before anything is read, and closed on every way out of the [with]
    block, so that what was written stays in the output file when an
    exception ends the run. *)
Definition process_pushshift_zst (input_path output_path : string)
    (subreddit_filter : str) (score_threshold : Z) : action world unit :=
  found ← os_path_isfile input_path;
  if negb found then
    print ("Error: File '" +:+ input_path +:+ "' not found.")
  else
    open_w output_path;;
    f ← file_content input_path;
    read_loop (stream_reads f) []
      (process_line output_path subreddit_filter score_threshold).

(** The entry point (source lines 54-66): the new world and the exit
    status of the process.  [sys.exit(1)] and an uncaught exception both
    give status 1. *)
Definition main (argv : list string) (w : world) : world * Z :=
  match argv with
  | [_; input_filename; output_filename] =>
      match process_pushshift_zst input_filename output_filename
              (ustr "climbharder") 20 w with
      | (w', Raise _) => (w', 1%Z)
      | (w', _) => (w', 0%Z)
      end
  | _ =>
      (fst (print "Usage: python filter_pushshift.py <input_file.zst> <output_file.jsonl>" w),
       1%Z)
  end.
End Script.

(** ** [json.loads] of CPython

    The script calls [json.loads] on a [bytes] object.  CPython guesses
    the encoding from the first bytes, decodes with the error handler
    [surrogatepass], and parses the text.  The model follows the C
    implementation of the scanner, which is the one in use by default. *)
Module Json.

(** *** Decoding the bytes *)

Inductive encoding :=
| Utf8 | Utf8Sig | Utf16 | Utf16LE | Utf16BE | Utf32 | Utf32LE | Utf32BE.

(** [json.detect_encoding], on the numeric values of the bytes. *)
Definition detect_encoding (b : list N) : encoding :=
  match b with
  | 0 :: 0 :: 254 :: 255 :: _ | 255 :: 254 :: 0 :: 0 :: _ => Utf32
  | 254 :: 255 :: _ | 255 :: 254 :: _ => Utf16
  | 239 :: 187 :: 191 :: _ => Utf8Sig
  | b0 :: b1 :: b2 :: b3 :: _ =>
      if b0 =? 0 then (if b1 =? 0 then Utf32BE else Utf16BE)
      else if b1 =? 0 then
        (if negb (b2 =? 0) || negb (b3 =? 0) then Utf16LE else Utf32LE)
      else Utf8
  | [b0; b1] =>
      if b0 =? 0 then Utf16BE else if b1 =? 0 then Utf16LE else Utf8
  | _ => Utf8
  end%N.

Definition is_cont (b : N) : bool := (N.land b 192 =? 128)%N.
Definition between (lo hi b : N) : bool := ((lo <=? b) && (b <=? hi))%N.

(** UTF-8 with [surrogatepass]: the strict decoder, which in addition
    accepts the three-byte encodings of the surrogates. *)
Fixpoint utf8_decode (b : list N) : option str :=
  match b with
  | [] => Some []
  | b0 :: r0 =>
      if (b0 <? 128)%N then cons b0 <$> utf8_decode r0
      else if between 194 223 b0 then
        match r0 with
        | b1 :: r1 =>
            if is_cont b1
            then cons (N.lor (N.shiftl (N.land b0 31) 6) (N.land b1 63))
                   <$> utf8_decode r1
            else None
        | _ => None
        end
      else if between 224 239 b0 then
        match r0 with
        | b1 :: b2 :: r2 =>
            if (if (b0 =? 224)%N then between 160 191 b1 else is_cont b1)
               && is_cont b2
            then cons (N.lor (N.shiftl (N.land b0 15) 12)
                         (N.lor (N.shiftl (N.land b1 63) 6) (N.land b2 63)))
                   <$> utf8_decode r2
            else None
        | _ => None
        end
      else if between 240 244 b0 then
        match r0 with
        | b1 :: b2 :: b3 :: r3 =>
            if (if (b0 =? 240)%N then between 144 191 b1
                else if (b0 =? 244)%N then between 128 143 b1
                else is_cont b1)
               && is_cont b2 && is_cont b3
            then cons (N.lor (N.shiftl (N.land b0 7) 18)
                         (N.lor (N.shiftl (N.land b1 63) 12)
                            (N.lor (N.shiftl (N.land b2 63) 6) (N.land b3 63))))
                   <$> utf8_decode r3
            else None
        | _ => None
        end
      else None
  end.

Definition code_unit16 (big_endian : bool) (x y : N) : N :=
  (if big_endian then x * 256 + y else y * 256 + x)%N.

(** UTF-16 with [surrogatepass]: a surrogate that is not part of a pair
    is kept as it is. *)
Fixpoint utf16_decode (big_endian : bool) (b : list N) : option str :=
  match b with
  | [] => Some []
  | [_] => None
  | x :: y :: r =>
      let u := code_unit16 big_endian x y in
      match r with
      | x2 :: y2 :: r2 =>
          let u2 := code_unit16 big_endian x2 y2 in
          if between 55296 56319 u && between 56320 57343 u2
          then cons (65536 + (u - 55296) * 1024 + (u2 - 56320))%N
                 <$> utf16_decode big_endian r2
          else cons u <$> utf16_decode big_endian r
      | _ => cons u <$> utf16_decode big_endian r
      end
  end.

Definition code_unit32 (big_endian : bool) (a b c d : N) : N :=
  (if big_endian then ((a * 256 + b) * 256 + c) * 256 + d
   else ((d * 256 + c) * 256 + b) * 256 + a)%N.

Fixpoint utf32_decode (big_endian : bool) (b : list N) : option str :=
  match b with
  | [] => Some []
  | a :: b :: c :: d :: r =>
      let u := code_unit32 big_endian a b c d in
      if (u <? 1114112)%N then cons u <$> utf32_decode big_endian r else None
  | _ => None
  end.

(** [s.decode(detect_encoding(s), 'surrogatepass')] *)
Definition decode (s : bytes) : completion str :=
  let b := map Byte.to_N s in
  let text :=
    match detect_encoding b with
    | Utf8 => utf8_decode b
    | Utf8Sig => utf8_decode (drop 3 b)
    | Utf16 => utf16_decode (bool_decide (take 2 b = [254; 255]%N)) (drop 2 b)
    | Utf16LE => utf16_decode false b
    | Utf16BE => utf16_decode true b
    | Utf32 => utf32_decode (bool_decide (take 4 b = [0; 0; 254; 255]%N)) (drop 4 b)
    | Utf32LE => utf32_decode false b
    | Utf32BE => utf32_decode true b
    end in
  match text with
  | Some t => Normal t
  | None => Raise UnicodeDecodeError
  end.

(** *** Strings *)

Definition hex_value (c : N) : option N :=
  (if between 48 57 c then Some (c - 48)
   else if between 97 102 c then Some (c - 87)
   else if between 65 70 c then Some (c - 55)
   else None)%N.

(** The four hex digits of a [\\uXXXX] escape. *)
Definition hex4 (s : str) : option (N * str) :=
  match s with
  | a :: b :: c :: d :: rest =>
      a ← hex_value a; b ← hex_value b; c ← hex_value c; d ← hex_value d;
      Some (((a * 16 + b) * 16 + c) * 16 + d, rest)%N
  | _ => None
  end.

(** [scanstring] in strict mode, from the character after the opening
    quote: the string and the text after the closing quote.  Every
    failure is a [JSONDecodeError].  [fuel] bounds the number of
    characters and escapes, and the length of the text is enough. *)
Fixpoint scanstring (fuel : nat) (s : str) : option (str * str) :=
  match fuel with
  | O => None
  | S fuel =>
      match s with
      | [] => None
      | 34 :: rest => Some ([], rest)
      | 92 :: esc :: rest =>
          if (esc =? 117)%N then
            '(c, rest) ← hex4 rest;
            if bool_decide (rest = []) then None
            else
              let pair :=
                if between 55296 56319 c then
                  match rest with
                  | 92 :: 117 :: rest2 =>
                      match hex4 rest2 with
                      | Some (c2, rest3) =>
                          if between 56320 57343 c2
                          then Some (65536 + (c - 55296) * 1024 + (c2 - 56320), rest3)%N
                          else None
                      | None => None
                      end
                  | _ => None
                  end
                else None in
              let '(c, rest) := default (c, rest) pair in
              '(t, rest) ← scanstring fuel rest; Some (c :: t, rest)
          else
            c ← (if (esc =? 34)%N then Some 34
                 else if (esc =? 92)%N then Some 92
                 else if (esc =? 47)%N then Some 47
                 else if (esc =? 98)%N then Some 8
                 else if (esc =? 102)%N then Some 12
                 else if (esc =? 110)%N then Some 10
                 else if (esc =? 114)%N then Some 13
                 else if (esc =? 116)%N then Some 9
                 else None)%N;
            '(t, rest) ← scanstring fuel rest; Some (c :: t, rest)
      | [92] => None
      | c :: rest =>
          if (c <=? 31)%N then None
          else '(t, rest) ← scanstring fuel rest; Some (c :: t, rest)
      end
  end%N.

(** *** Numbers *)

Definition is_digit (c : N) : bool := between 48 57 c.

(** The longest prefix of characters of a class, and the rest. *)
Fixpoint span (p : N → bool) (s : str) : str * str :=
  match s with
  | c :: s' => if p c then let '(a, b) := span p s' in (c :: a, b) else ([], s)
  | [] => ([], [])
  end.

Definition decimal (digits : str) : Z :=
  fold_left (λ acc c, acc * 10 + Z.of_N (c - 48))%Z digits 0%Z.

(** [sys.get_int_max_str_digits()]: [int] refuses longer literals with a
    [ValueError]. *)
Definition int_max_str_digits : nat := 4300.

(** The double nearest to the positive rational [num / den], ties to
    even; an overflow gives infinity. *)
Definition nearest_double (num den : Z) : pyfloat :=
  let e0 := (Z.log2 num - Z.log2 den - 52)%Z in
  let scaled (e : Z) : Z * Z :=
    if (0 <=? e)%Z then (num, den * 2 ^ e)%Z else (num * 2 ^ (- e), den)%Z in
  let e1 :=
    let '(n, d) := scaled e0 in
    if (n / d <? 2 ^ 52)%Z then (e0 - 1)%Z else e0 in
  let e := Z.max e1 (-1074) in
  let '(n, d) := scaled e in
  let q := (n / d)%Z in
  let r := (n mod d)%Z in
  let q := if (d <? 2 * r)%Z || ((2 * r =? d)%Z && Z.odd q) then (q + 1)%Z else q in
  if (2 ^ 1024 <=? q * 2 ^ e)%Z then FInf false else FFinite q e.

Definition negate (f : pyfloat) : pyfloat :=
  match f with
  | FNaN => FNaN
  | FInf negative => FInf (negb negative)
  | FFinite m e => FFinite (- m) e
  end.

(** [float(text)] for the text of a JSON number with the digits
    [int_part], the optional fraction digits and the optional exponent. *)
Definition float_of_literal (negative : bool) (int_part frac : str) (exp : Z)
    : pyfloat :=
  let digits := decimal (int_part ++ frac) in
  let e10 := (exp - Z.of_nat (length frac))%Z in
  let f :=
    if (digits =? 0)%Z then FFinite 0 0
    else if (0 <=? e10)%Z then nearest_double (digits * 10 ^ e10) 1
    else nearest_double digits (10 ^ (- e10)) in
  if negative then negate f else f.

(** [_match_number]: the number at the start of the text, if there is
    one, and the rest.  [None] when no number starts here. *)
Definition match_number (s : str) : option (completion value * str) :=
  let '(negative, s1) :=
    match s with 45%N :: r => (true, r) | _ => (false, s) end in
  '(int_part, s2) ←
    match s1 with
    | c :: r =>
        if between 49 57 c then let '(ds, r') := span is_digit r in Some (c :: ds, r')
        else if (c =? 48)%N then Some ([c], r)
        else None
    | [] => None
    end;
  let '(frac, s3) :=
    match s2 with
    | 46%N :: d :: r =>
        if is_digit d then let '(ds, r') := span is_digit (d :: r) in (Some ds, r')
        else (None, s2)
    | _ => (None, s2)
    end in
  let '(exp, s4) :=
    match s3 with
    | c :: r =>
        if (c =? 101)%N || (c =? 69)%N then
          let '(minus, r1) :=
            match r with
            | 45%N :: x => (true, x)
            | 43%N :: x => (false, x)
            | _ => (false, r)
            end in
          let '(ds, r2) := span is_digit r1 in
          if bool_decide (ds = []) then (None, s3)
          else (Some (if minus then (- decimal ds)%Z else decimal ds), r2)
        else (None, s3)
    | [] => (None, s3)
    end in
  let v :=
    match frac, exp with
    | None, None =>
        if (int_max_str_digits <? length int_part)%nat then Raise ValueError
        else Normal (PyInt (if negative then (- decimal int_part)%Z else decimal int_part))
    | _, _ =>
        Normal (PyFloat (float_of_literal negative int_part (default [] frac)
                           (default 0%Z exp)))
    end in
  Some (v, s4).

(** *** Values *)

Definition is_ws (c : N) : bool :=
  ((c =? 32) || (c =? 9) || (c =? 10) || (c =? 13))%N.

Definition skip_ws (s : str) : str := drop_while is_ws s.

(** [s] starts with the ASCII text [lit]: what is left of [s]. *)
Definition literal (lit : string) (s : str) : option str :=
  let l := ustr lit in
  if is_prefix l s then Some (drop (length l) s) else None.

Section Containers.
(** The scanner for the values one level further down. *)
Variable scan : str → completion (value * str).

(** The loop of [_parse_array], from the start of an item.  The fuel
    counts the characters of the text and does not run out. *)
Fixpoint array_items (fuel : nat) (s : str) : completion (list value * str) :=
  match fuel with
  | O => Raise RecursionError
  | S fuel =>
      '(v, s) ← scan s;
      match skip_ws s with
      | 93%N :: rest => Normal ([v], rest)
      | 44%N :: rest =>
          '(vs, rest) ← array_items fuel (skip_ws rest);
          Normal (v :: vs, rest)
      | _ => Raise JSONDecodeError
      end
  end.

(** [_parse_array], from the character after the bracket. *)
Definition parse_array (s : str) : completion (value * str) :=
  match skip_ws s with
  | 93%N :: rest => Normal (PyList [], rest)
  | s' => '(vs, rest) ← array_items (S (length s')) s'; Normal (PyList vs, rest)
  end.

(** The loop of [_parse_object], from the start of a key; a key that
    occurs again replaces the earlier value. *)
Fixpoint object_members (fuel : nat) (d : gmap str value) (s : str)
    : completion (gmap str value * str) :=
  match fuel with
  | O => Raise RecursionError
  | S fuel =>
      match s with
      | 34%N :: s =>
          match scanstring (length s) s with
          | Some (key, s) =>
              match skip_ws s with
              | 58%N :: s =>
                  '(v, s) ← scan (skip_ws s);
                  let d := <[key := v]> d in
                  match skip_ws s with
                  | 125%N :: rest => Normal (d, rest)
                  | 44%N :: rest => object_members fuel d (skip_ws rest)
                  | _ => Raise JSONDecodeError
                  end
              | _ => Raise JSONDecodeError
              end
          | None => Raise JSONDecodeError
          end
      | _ => Raise JSONDecodeError
      end
  end.

(** [_parse_object], from the character after the brace. *)
Definition parse_object (s : str) : completion (value * str) :=
  match skip_ws s with
  | 125%N :: rest => Normal (PyDict ∅, rest)
  | s' => '(d, rest) ← object_members (S (length s')) ∅ s'; Normal (PyDict d, rest)
  end.
End Containers.

(** [scan_once]: the value at the start of the text and the rest.
    [depth] is the number of containers that may still be entered
    before the interpreter raises [RecursionError]. *)
Fixpoint scan_once (depth : nat) (s : str) : completion (value * str) :=
  match s with
  | 34%N :: rest =>
      match scanstring (length rest) rest with
      | Some (t, rest) => Normal (PyStr t, rest)
      | None => Raise JSONDecodeError
      end
  | 123%N :: rest =>
      match depth with
      | O => Raise RecursionError
      | S depth => parse_object (scan_once depth) rest
      end
  | 91%N :: rest =>
      match depth with
      | O => Raise RecursionError
      | S depth => parse_array (scan_once depth) rest
      end
  | _ =>
      let constant (lit : string) (v : value) :=
        (λ rest, (Normal v, rest)) <$> literal lit s in
      let found :=
        constant "null" PyNone
        ∪ constant "true" (PyBool true)
        ∪ constant "false" (PyBool false)
        ∪ constant "NaN" (PyFloat FNaN)
        ∪ constant "Infinity" (PyFloat (FInf false))
        ∪ constant "-Infinity" (PyFloat (FInf true))
        ∪ match_number s in
      match found with
      | Some (v, rest) => v ← v; Normal (v, rest)
      | None => Raise JSONDecodeError
      end
  end.

(** The nesting at which the scanner gives up when it is called as the
    script calls it: the default recursion limit of 1000 less the
    frames in use (CPython 3.11). *)
Definition recursion_limit : nat := 994.

(** [json.loads(s)] for a [bytes] object [s]. *)
Definition loads (s : bytes) : completion value :=
  text ← decode s;
  '(obj, rest) ← scan_once recursion_limit (skip_ws text);
  if bool_decide (skip_ws rest = []) then Normal obj else Raise JSONDecodeError.
End Json.

(** ** The specification's notions *)

(** The complete lines of a decompressed stream: the segments that end
    in a newline.  What follows the last newline is the residue. *)
Definition complete_lines (content : bytes) : list bytes :=
  removelast (bytes_split x0a content).

Definition residue (content : bytes) : bytes :=
  default [] (last (bytes_split x0a content)).

(** The Filter/Normalizer as a function of one line: zero or one record,
    or the exception that ends the run. *)
Definition line_record (json_loads : bytes → completion value)
    (subreddit_filter : str) (score_threshold : Z) (line : bytes)
    : completion OutputRecord :=
  if bool_decide (bytes_strip line = []) then Continue
  else
    match json_loads line ≫= normalize subreddit_filter score_threshold with
    | Raise JSONDecodeError => Continue
    | c => c
    end.

(** The bytes one record contributes to the output file. *)
Definition output_line (r : OutputRecord) : bytes :=
  map byte_of_N (json_dumps r ++ [10%N]).

(** The records of a sequence of lines, in order, up to the first line
    that raises. *)
Fixpoint records (rs : list (completion OutputRecord))
    : list OutputRecord * completion unit :=
  match rs with
  | [] => ([], Normal tt)
  | Normal r :: rs' => let '(l, c) := records rs' in (r :: l, c)
  | Continue :: rs' => records rs'
  | Raise e :: _ => ([], Raise e)
  end.

(** The world after [data] has been written to the open file at
    [path]. *)
Definition append_output (path : string) (data : bytes) (w : world) : world :=
  World (alter (λ old, old ++ data) path (files w)) (stdout w).

(** The chunks a reader delivers before the loop over it ends, and how
    the loop ends: at the end of the stream, or with the decompressor's
    exception. *)
Fixpoint delivered (reads : list read_result) : list bytes * completion unit :=
  match reads with
  | ReadReturns (b :: chunk) :: reads' =>
      let '(chunks, ending) := delivered reads' in ((b :: chunk) :: chunks, ending)
  | ReadRaises :: _ => ([], Raise ZstdError)
  | _ => ([], Normal tt)
  end.

(** Text that consists of ASCII characters. *)
Definition is_ascii (s : str) : Prop := Forall (λ c, (c < 128)%N) s.


(** A field of a parsed record, with the default of the data model. *)
Definition field (d : gmap str value) (key : string) (dflt : value) : value :=
  default dflt (d !! ustr key).

(** [f > t] and [v > t] in Python, for an integer [t]. *)
Definition float_gt_int (f : pyfloat) (t : Z) : bool :=
  match f with
  | FNaN => false
  | FInf negative => negb negative
  | FFinite m e => if (0 <=? e)%Z then (t <? m * 2 ^ e)%Z else (t * 2 ^ (- e) <? m)%Z
  end.

Definition exceeds (v : value) (t : Z) : Prop :=
  match v with
  | PyBool b => (t < Z.b2z b)%Z
  | PyInt n => (t < n)%Z
  | PyFloat f => float_gt_int f t = true
  | _ => False
  end.

(** [f <= t] and [v <= t] as facts about numbers: a finite float [m * 2^e]
    is at most [t] when it is so as a rational, minus infinity is at most
    every integer, and NaN and plus infinity are at most none. *)
Definition float_at_most (f : pyfloat) (t : Z) : Prop :=
  match f with
  | FNaN => False
  | FInf negative => negative = true
  | FFinite m e => ((0 ≤ e → m * 2 ^ e ≤ t) ∧ (e < 0 → m ≤ t * 2 ^ (- e)))%Z
  end.

Definition at_most (v : value) (t : Z) : Prop :=
  match v with
  | PyBool b => (Z.b2z b ≤ t)%Z
  | PyInt n => (n ≤ t)%Z
  | PyFloat f => float_at_most f t
  | _ => False
  end.

(** The text of a string value. *)
Definition text_of (v : value) : str :=
  match v with PyStr s => s | _ => [] end.

Definition trimmed (d : gmap str value) (key : string) : str :=
  str_strip (text_of (field d key (PyStr []))).

(** The body the specification gives an emitted record. *)
Definition expected_body (d : gmap str value) : str :=
  if bool_decide (is_Some (d !! ustr "title"))
  then trimmed d "title" ++ ustr " " ++ trimmed d "selftext"
  else trimmed d "body".

(** ** Concrete inputs for the examples *)

(** JSON text written with apostrophes in the place of the quotation
    marks. *)
Definition json_text (s : string) : bytes :=
  map (λ b, match b with x27 => x22 | _ => b end) (list_byte_of_string s).

(** A stand-in for the decompressor: the content of the file arrives as
    it is, [size] bytes at a time. *)
Fixpoint chunks_of (fuel size : nat) (s : bytes) : list bytes :=
  match fuel, s with
  | S fuel, _ :: _ => take size s :: chunks_of fuel size (drop size s)
  | _, _ => []
  end.

Definition stored_reads (size : nat) (f : bytes) : list read_result :=
  ReadReturns <$> chunks_of (length f) size f.

(** A comment of 120 characters, and lines built around it. *)
Definition long_text : string :=
  "Hangboarding twice a week for three months moved my max hang from body weight to plus twenty kilos on the 20 mm edge ok.".

Definition comment_line : bytes :=
  json_text ("{'subreddit':'climbharder','score':25,'body':'  " +:+ long_text +:+ " '}").

Definition submission_line : bytes :=
  json_text ("{'subreddit':'climbharder','score':50,'title':' T','selftext':'S ','body':'"
             +:+ long_text +:+ "'}").

(** The dictionary a line parses to. *)
Definition parsed (line : bytes) : gmap str value :=
  match Json.loads line with
  | Normal (PyDict d) => d
  | _ => ∅
  end.

Definition no_score_line : bytes :=
  json_text ("{'subreddit':'climbharder','body':'" +:+ long_text +:+ "'}").

Definition low_score_line : bytes :=
  json_text ("{'subreddit':'climbharder','score':5,'body':'" +:+ long_text +:+ "'}").

Definition nan_score_line : bytes :=
  json_text ("{'subreddit':'climbharder','score':NaN,'body':'" +:+ long_text +:+ "'}").

(** A score that is a float, equal to the threshold 20. *)
Definition float_score_line : bytes :=
  json_text ("{'subreddit':'climbharder','score':20.0,'body':'" +:+ long_text +:+ "'}").

(** A submission without [body] whose [selftext] is long. *)
Definition long_selftext_line : bytes :=
  json_text ("{'subreddit':'climbharder','score':50,'title':'T','selftext':'"
             +:+ long_text +:+ "'}").

(** Not JSON: the byte [0xe9] (a Latin-1 e with acute accent) is not
    UTF-8 here. *)
Definition latin1_line : bytes :=
  json_text "{'subreddit':'climbharder','score':50,'body':'caf" ++ [xe9]
  ++ json_text "'}".

(** JSON, but not an object. *)
Definition array_line : bytes := json_text "[1, 2]".

(** Not JSON, and refused as such by the parser. *)
Definition truncated_line : bytes := json_text "{'subreddit':'climbharder','sco".

(** An archive stored as it is, and a world that holds it next to an
    output file left by an earlier run. *)
Definition example_archive : bytes :=
  comment_line ++ [x0a] ++ low_score_line ++ [x0a] ++ truncated_line
  ++ [x0a; x20; x0a] ++ submission_line ++ [x0a] ++ bstr "{ left over".

Definition example_world : world :=
  World {[ "in.zst" := example_archive; "out.jsonl" := bstr "old content" ]} [].

(** Another world with the same archive. *)
Definition other_world : world :=
  World {[ "in.zst" := example_archive; "notes.txt" := bstr "x" ]} ["hello"].

(** A reader that delivers the content of the file, [size] bytes at a
    time, and then fails as the decompressor does on a corrupt frame. *)
Definition failing_reads (size : nat) (f : bytes) : list read_result :=
  stored_reads size f ++ [ReadRaises].

(** Records with a field of an unexpected type. *)
Definition other_subreddit_line : bytes :=
  json_text "{'subreddit':'other','score':null,'body':7,'title':[]}".

Definition null_score_line : bytes :=
  json_text "{'subreddit':'climbharder','score':null,'body':'x'}".

Definition numeric_body_line : bytes :=
  json_text "{'subreddit':'climbharder','score':50,'body':7}".

Definition null_title_line : bytes :=
  json_text ("{'subreddit':'climbharder','score':50,'title':null,'body':'"
             +:+ long_text +:+ "'}").

(** The one key of an output line, and the code points that are not
    surrogates. *)
Definition body_dict (text : str) : gmap str value :=
  {[ ustr "body" := PyStr text ]}.

Definition is_scalar_value (c : N) : Prop :=
  (c < 55296 ∨ 57344 ≤ c < 1114112)%N.

(** The types of values: numbers can be compared with the threshold,
    strings can be trimmed. *)
Definition is_number (v : value) : bool :=
  match v with
  | PyBool _ | PyInt _ | PyFloat _ => true
  | _ => false
  end.

Definition is_text (v : value) : bool :=
  match v with
  | PyStr _ => true
  | _ => false
  end.

(** Printable ASCII. *)
Definition is_printable (c : N) : Prop := (32 ≤ c ≤ 126)%N.

(** * Properties *)

(** ** Loops *)

Lemma for_in_not_continue {S X} (xs : list X) (body : X → action S unit) s :
  snd (for_in xs body s) ≠ Continue.
Proof.
  revert s. induction xs as [|x xs IH]; intros s; simpl; [discriminate|].
  destruct (body x s) as [s' [[]| |e]]; simpl; auto; discriminate.
Qed.

Lemma for_in_app {S X} (xs ys : list X) (body : X → action S unit) s :
  for_in (xs ++ ys) body s = (for_in xs body;; for_in ys body) s.
Proof.
  revert s. induction xs as [|x xs IH]; intros s; simpl; [reflexivity|].
  unfold mbind, action_bind in *. simpl.
  destruct (body x s) as [s' [[]| |e]]; simpl; auto.
Qed.

(** ** Splitting at newlines *)

Lemma bytes_split_not_nil sep s : bytes_split sep s ≠ [].
Proof.
  destruct s as [|b s]; simpl; [discriminate|].
  destruct (Byte.eqb b sep); [discriminate|].
  destruct (bytes_split sep s); discriminate.
Qed.

Lemma bytes_split_last sep s : is_Some (last (bytes_split sep s)).
Proof.
  destruct (bytes_split sep s) as [|x l] eqn:E.
  - by apply bytes_split_not_nil in E.
  - rewrite last_is_Some. discriminate.
Qed.

Lemma byte_eqb_eq (a b : byte) : Byte.eqb a b = true ↔ a = b.
Proof.
  split; [apply Byte.byte_dec_bl | apply Byte.byte_dec_lb].
Qed.

Lemma byte_eqb_neq (a b : byte) : Byte.eqb a b = false ↔ a ≠ b.
Proof.
  rewrite <- byte_eqb_eq. destruct (Byte.eqb a b); split; congruence.
Qed.

(** A text without the separator is its own single segment. *)
Lemma bytes_split_none sep s : sep ∉ s → bytes_split sep s = [s].
Proof.
  induction s as [|b s IH]; intros Hs; simpl; [reflexivity|].
  apply not_elem_of_cons in Hs as [Hb Hs].
  destruct (Byte.eqb b sep) eqn:E.
  - apply byte_eqb_eq in E. congruence.
  - by rewrite IH.
Qed.

(** Splitting a concatenation: the complete segments of the first part,
    then the segments of its residue followed by the second part. *)
Lemma bytes_split_app sep a b :
  bytes_split sep (a ++ b) =
  removelast (bytes_split sep a)
  ++ bytes_split sep (default [] (last (bytes_split sep a)) ++ b).
Proof.
  induction a as [|c a IH]; simpl; [reflexivity|].
  destruct (Byte.eqb c sep) eqn:E.
  - destruct (bytes_split sep a) as [|x l] eqn:Ea.
    + by apply bytes_split_not_nil in Ea.
    + rewrite IH. simpl. reflexivity.
  - rewrite IH. destruct (bytes_split sep a) as [|x l] eqn:Ea.
    + by apply bytes_split_not_nil in Ea.
    + destruct l as [|y l]; simpl.
      * rewrite E.
        destruct (bytes_split sep (x ++ b)) eqn:Exb; [|reflexivity].
        by apply bytes_split_not_nil in Exb.
      * reflexivity.
Qed.

(** The segments contain no separator, and joined by it they give the
    text back. *)
Lemma bytes_split_sep_free sep s : Forall (λ seg, sep ∉ seg) (bytes_split sep s).
Proof.
  induction s as [|b s IH]; simpl.
  - repeat constructor. apply not_elem_of_nil.
  - destruct (Byte.eqb b sep) eqn:E.
    + constructor; [apply not_elem_of_nil | exact IH].
    + apply byte_eqb_neq in E.
      destruct (bytes_split sep s) as [|x l]; inversion IH; subst.
      * repeat constructor. rewrite not_elem_of_cons. split; [congruence|apply not_elem_of_nil].
      * constructor; [|assumption]. rewrite not_elem_of_cons. split; [congruence|assumption].
Qed.

Lemma bytes_split_join sep s :
  s = concat (map (λ l, l ++ [sep]) (removelast (bytes_split sep s)))
      ++ default [] (last (bytes_split sep s)).
Proof.
  induction s as [|b s IH]; simpl; [reflexivity|].
  destruct (Byte.eqb b sep) eqn:E.
  - apply byte_eqb_eq in E. subst b.
    destruct (bytes_split sep s) as [|x l] eqn:Es.
    + by apply bytes_split_not_nil in Es.
    + simpl. f_equal. exact IH.
  - destruct (bytes_split sep s) as [|x l] eqn:Es.
    + by apply bytes_split_not_nil in Es.
    + destruct l as [|y l]; simpl in *; by f_equal.
Qed.

Lemma residue_sep_free content : x0a ∉ residue content.
Proof.
  unfold residue.
  destruct (bytes_split_last x0a content) as [r Hr]. rewrite Hr. simpl.
  pose proof (bytes_split_sep_free x0a content) as HF.
  rewrite Forall_forall in HF. apply HF.
  apply last_Some in Hr as [l ->]. apply elem_of_app. right. apply list_elem_of_singleton. reflexivity.
Qed.

Lemma complete_lines_app a b :
  complete_lines (a ++ b) = complete_lines a ++ complete_lines (residue a ++ b).
Proof.
  unfold complete_lines, residue. rewrite bytes_split_app.
  apply removelast_app, bytes_split_not_nil.
Qed.

(** One turn of the outer loop: the complete lines of the buffer
    extended by the chunk go through the body, and the residue is the
    next buffer. *)
Lemma read_loop_cons {S} chunk reads buffer (each_line : bytes → action S unit) s :
  chunk ≠ [] →
  read_loop (ReadReturns chunk :: reads) buffer each_line s =
  (for_in (complete_lines (buffer ++ chunk)) each_line;;
   read_loop reads (residue (buffer ++ chunk)) each_line) s.
Proof.
  intros Hc. destruct chunk as [|b chunk]; [done|].
  cbn [read_loop]. unfold list_pop, complete_lines, residue.
  destruct (bytes_split_last x0a (buffer ++ b :: chunk)) as [r Hr].
  rewrite Hr. reflexivity.
Qed.

Lemma read_loop_lines {S} chunks buffer (each_line : bytes → action S unit) s :
  Forall (λ c, c ≠ []) chunks →
  x0a ∉ buffer →
  read_loop (ReadReturns <$> chunks) buffer each_line s =
  for_in (complete_lines (buffer ++ concat chunks)) each_line s.
Proof.
  intros Hne. revert buffer s.
  induction Hne as [|chunk chunks Hc _ IH]; intros buffer s Hb.
  - simpl. rewrite app_nil_r. unfold complete_lines.
    by rewrite bytes_split_none.
  - rewrite fmap_cons, read_loop_cons by done.
    simpl concat.
    rewrite app_assoc, (complete_lines_app (buffer ++ chunk) (concat chunks)), for_in_app.
    unfold mbind, action_bind.
    destruct (for_in (complete_lines (buffer ++ chunk)) each_line s) as [s' [[]| |e]];
      try reflexivity.
    apply IH, residue_sep_free.
Qed.

(** ** C5: the stream decoder *)

(** C5.  For every decompressed stream and every way of cutting it into
    non-empty chunks, the loop runs its body on the complete lines of the
    stream, in order, and on nothing else: the stream is these lines, each
    followed by a newline, and then a residue without newline that never
    reaches the body. *)
Theorem stream_decoder_lines (chunks : list bytes) :
  Forall (λ c, c ≠ []) chunks →
  let content := concat chunks in
  (∀ S (each_line : bytes → action S unit) s,
     read_loop (ReadReturns <$> chunks) [] each_line s =
     for_in (complete_lines content) each_line s)
  ∧ content = concat (map (λ l, l ++ [x0a]) (complete_lines content)) ++ residue content
  ∧ Forall (λ l, x0a ∉ l) (complete_lines content)
  ∧ x0a ∉ residue content.
Proof.
  intros Hne content. repeat split.
  - intros S each_line s. apply (read_loop_lines chunks []); [done|apply not_elem_of_nil].
  - apply bytes_split_join.
  - unfold complete_lines.
    pose proof (bytes_split_sep_free x0a content) as HF.
    destruct (bytes_split_last x0a content) as [r Hr].
    apply last_Some in Hr as [l Hl]. rewrite Hl in *.
    rewrite removelast_last. by apply Forall_app in HF as [? _].
  - apply residue_sep_free.
Qed.

Lemma stream_decoder_lines_witness :
  let chunks := [bstr "ab"; bstr "c" ++ [x0a] ++ bstr "d"; [x0a; x0a] ++ bstr "tail"] in
  Forall (λ c, c ≠ []) chunks
  ∧ ∀ S (each_line : bytes → action S unit) s,
      read_loop (ReadReturns <$> chunks) [] each_line s =
      for_in [bstr "abc"; bstr "d"; []] each_line s.
Proof.
  intros chunks.
  assert (H : Forall (λ c, c ≠ []) chunks) by (repeat constructor; discriminate).
  split; [exact H|].
  exact (proj1 (stream_decoder_lines chunks H)).
Defined.

(** The loop over any reader: the complete lines of what was delivered,
    then the end of the stream or the decompressor's exception. *)
Lemma read_loop_delivered {S} reads buffer (each_line : bytes → action S unit) s :
  x0a ∉ buffer →
  read_loop reads buffer each_line s =
  (for_in (complete_lines (buffer ++ concat (fst (delivered reads)))) each_line;;
   lift (snd (delivered reads))) s.
Proof.
  revert buffer s.
  induction reads as [|r reads IH]; intros buffer s Hb.
  - simpl. rewrite app_nil_r. unfold complete_lines. by rewrite bytes_split_none.
  - destruct r as [[|b chunk]|].
    + simpl. rewrite app_nil_r. unfold complete_lines. by rewrite bytes_split_none.
    + rewrite read_loop_cons by done.
      cbn [delivered]. destruct (delivered reads) as [chunks ending] eqn:Ed.
      cbn [fst snd concat] in *.
      rewrite app_assoc, (complete_lines_app (buffer ++ b :: chunk) (concat chunks)).
      unfold mbind, action_bind. rewrite for_in_app. unfold mbind, action_bind.
      destruct (for_in (complete_lines (buffer ++ b :: chunk)) each_line s) as [s' [[]| |e]];
        try reflexivity.
      rewrite IH by apply residue_sep_free. reflexivity.
    + simpl. rewrite app_nil_r. unfold complete_lines. by rewrite bytes_split_none.
Qed.

(** ** Writing a record *)

Lemma hex_digit_ascii x : (hex_digit (N.land x 15) < 128)%N.
Proof.
  assert (N.land x 15 < 16)%N.
  { change 15%N with (N.ones 4). rewrite N.land_ones. by apply N.mod_lt. }
  unfold hex_digit. destruct (N.land x 15 <? 10)%N; lia.
Qed.

Lemma u_escape_ascii c : is_ascii (u_escape c).
Proof.
  unfold u_escape, is_ascii.
  repeat (constructor; [first [apply hex_digit_ascii | lia]|]). constructor.
Qed.

Lemma ascii_escape_unichar_ascii c : is_ascii (ascii_escape_unichar c).
Proof.
  unfold ascii_escape_unichar, is_ascii.
  repeat match goal with
         | |- context [if ?b then _ else _] => destruct b eqn:?
         end.
  all: try (apply u_escape_ascii).
  all: try (apply Forall_app; split; apply u_escape_ascii).
  all: try (repeat constructor; lia).
  apply andb_true_iff in Heqb6 as [_ H%N.leb_le]. repeat constructor. lia.
Qed.

Lemma encode_basestring_ascii_ascii s : is_ascii (encode_basestring_ascii s).
Proof.
  unfold encode_basestring_ascii, is_ascii.
  apply Forall_app; split; [repeat constructor; lia|].
  apply Forall_app; split; [|repeat constructor; lia].
  induction s as [|c s IH]; simpl; [constructor|].
  apply Forall_app; split; [apply ascii_escape_unichar_ascii | exact IH].
Qed.

Lemma ascii_literal (s : str) :
  forallb (λ c, c <? 128)%N s = true → is_ascii s.
Proof.
  intros H. apply Forall_forall. intros c Hc.
  rewrite forallb_forall in H. apply N.ltb_lt, H. by apply list_elem_of_In.
Qed.

(** [json.dumps] writes ASCII only. *)
Lemma json_dumps_ascii r : is_ascii (json_dumps r).
Proof.
  unfold json_dumps, is_ascii.
  apply Forall_app; split; [by apply ascii_literal|].
  apply Forall_app; split; [apply encode_basestring_ascii_ascii|].
  apply Forall_app; split; [by apply ascii_literal|].
  apply Forall_app; split; [apply encode_basestring_ascii_ascii|by apply ascii_literal].
Qed.

Lemma utf8_encode_ascii s : is_ascii s → utf8_encode s = Some (map byte_of_N s).
Proof.
  induction 1 as [|c s Hc _ IH]; simpl; [reflexivity|].
  rewrite IH. unfold utf8_encode_char.
  apply N.ltb_lt in Hc. rewrite Hc. reflexivity.
Qed.

(** So the write of a record never fails, and appends [output_line]. *)
Lemma file_write_record out r w :
  file_write out (json_dumps r ++ [10%N]) w = (append_output out (output_line r) w, Normal tt).
Proof.
  unfold file_write. rewrite utf8_encode_ascii; [reflexivity|].
  apply Forall_app; split; [apply json_dumps_ascii|repeat constructor; lia].
Qed.

(** ** One line *)

Section Lines.
Variable json_loads : bytes → completion value.
Variables (out : string) (subreddit_filter : str) (score_threshold : Z).

Let each_line := process_line json_loads out subreddit_filter score_threshold.
Let record_of := line_record json_loads subreddit_filter score_threshold.

(** The body of the inner loop does what [line_record] says: a record
    is written, or the line is passed over, or the exception leaves the
    loop; in the last two cases the world is as before. *)
Lemma process_line_record line w :
  each_line line w =
  match record_of line with
  | Normal r => (append_output out (output_line r) w, Normal tt)
  | Continue => (w, Continue)
  | Raise e => (w, Raise e)
  end.
Proof.
  unfold each_line, record_of, process_line, line_record.
  destruct (bool_decide (bytes_strip line = [])); [reflexivity|].
  unfold try_except, mbind, action_bind, completion_bind, lift.
  destruct (json_loads line) as [post| |e]; [|reflexivity|by destruct e].
  destruct (normalize subreddit_filter score_threshold post) as [r| |e];
    [|reflexivity|by destruct e].
  rewrite file_write_record. reflexivity.
Qed.

(** The inner loop writes the records of its lines, in order, up to the
    first line that raises. *)
Lemma for_in_records lines w :
  for_in lines each_line w =
  let '(rs, c) := records (map record_of lines) in
  (append_output out (concat (map output_line rs)) w, c).
Proof.
  revert w. induction lines as [|line lines IH]; intros w.
  - simpl. f_equal. destruct w as [fs so]. unfold append_output. simpl.
    f_equal. symmetry. apply alter_id. intros; apply app_nil_r.
  - cbn [for_in map records]. rewrite process_line_record.
    destruct (record_of line) as [r| |e].
    + rewrite IH. destruct (records (map record_of lines)) as [rs c].
      f_equal. unfold append_output; simpl. f_equal.
      rewrite alter_alter_eq. apply alter_ext. intros x _. cbn.
      by rewrite <- app_assoc.
    + apply IH.
    + f_equal. destruct w as [fs so]. unfold append_output. simpl.
      f_equal. symmetry. apply alter_id. intros; apply app_nil_r.
Qed.
End Lines.

(** ** A whole run *)

Section Run.
Variable json_loads : bytes → completion value.
Variable stream_reads : bytes → list read_result.
Variables (input_path output_path : string).
Variables (subreddit_filter : str) (score_threshold : Z).

Let run :=
  process_pushshift_zst json_loads stream_reads input_path output_path
    subreddit_filter score_threshold.
Let each_line :=
  process_line json_loads output_path subreddit_filter score_threshold.
Let record_of := line_record json_loads subreddit_filter score_threshold.

Lemma run_missing w :
  files w !! input_path = None →
  run w = (World (files w)
             (stdout w ++ ["Error: File '" +:+ input_path +:+ "' not found."]),
           Normal tt).
Proof.
  intros Hin. unfold run, process_pushshift_zst, mbind, action_bind, os_path_isfile.
  rewrite Hin. rewrite bool_decide_eq_false_2 by (intros [? ?]; discriminate).
  reflexivity.
Qed.

(** With the input in place, the output file is emptied first, and the
    loop starts from that world. *)
Lemma run_existing w :
  is_Some (files w !! input_path) →
  run w =
  let w1 := World (<[output_path := []]> (files w)) (stdout w) in
  read_loop (stream_reads (default [] (files w1 !! input_path))) [] each_line w1.
Proof.
  intros Hin. unfold run, process_pushshift_zst, mbind, action_bind, os_path_isfile.
  rewrite bool_decide_eq_true_2 by done. reflexivity.
Qed.

(** What a run leaves behind: the output file holds the records of the
    complete lines that were delivered, and nothing else. *)
Lemma run_output w :
  is_Some (files w !! input_path) →
  run w =
  let f := default [] (<[output_path := []]> (files w) !! input_path) in
  let '(rs, c) :=
    records (map record_of (complete_lines (concat (fst (delivered (stream_reads f)))))) in
  (World (<[output_path := concat (map output_line rs)]> (files w)) (stdout w),
   c ≫= λ _, snd (delivered (stream_reads f))).
Proof.
  intros Hin. rewrite run_existing by done. cbn zeta.
  rewrite read_loop_delivered by apply not_elem_of_nil.
  unfold mbind at 1, action_bind. cbn [app]. unfold each_line.
  rewrite for_in_records. fold record_of.
  destruct (records _) as [rs c].
  unfold append_output. cbn [files stdout]. rewrite alter_insert_eq. cbn [app].
  destruct c as [[]| |e]; reflexivity.
Qed.
End Run.

(** ** The tests on a parsed record *)

Implicit Types (sf : str) (thr : Z) (d : gmap str value) (v : value).

(** [normalize] on a dictionary, field by field. *)
Lemma normalize_dict sf thr (d : gmap str value) :
  normalize sf thr (PyDict d) =
  if negb (py_eq_str (field d "subreddit" PyNone) sf) then Continue
  else
    too_low ← py_le_int (field d "score" (PyInt 0)) thr;
    if (too_low : bool) then Continue
    else
      text ← py_strip (field d "body" (PyStr []));
      if (length (text : str) <? 120)%nat then Continue
      else if bool_decide (is_Some (d !! ustr "title")) then
        title ← py_strip (field d "title" (PyStr []));
        body ← py_strip (field d "selftext" (PyStr []));
        Normal {| body := title ++ ustr " " ++ body |}
      else
        body ← py_strip (field d "body" (PyStr []));
        Normal {| body := body |}.
Proof. reflexivity. Qed.

Lemma normalize_not_dict sf thr v :
  (∀ d, v ≠ PyDict d) → normalize sf thr v = Raise AttributeError.
Proof. intros H. destruct v; try reflexivity. by destruct (H d). Qed.

Lemma py_eq_str_true v s : py_eq_str v s = true ↔ v = PyStr s.
Proof.
  destruct v; simpl; try (split; [discriminate|congruence]).
  rewrite bool_decide_eq_true. split; congruence.
Qed.

Lemma field_lookup (d : gmap str value) key dflt v :
  d !! ustr key = Some v → field d key dflt = v.
Proof. unfold field. by intros ->. Qed.

Lemma field_default (d : gmap str value) key dflt :
  d !! ustr key = None → field d key dflt = dflt.
Proof. unfold field. by intros ->. Qed.

(** The subreddit test passes exactly when the field is there and is
    the target string. *)
Lemma subreddit_test sf (d : gmap str value) :
  py_eq_str (field d "subreddit" PyNone) sf = true ↔
  d !! ustr "subreddit" = Some (PyStr sf).
Proof.
  rewrite py_eq_str_true. unfold field.
  destruct (d !! ustr "subreddit") as [v|]; simpl; split; congruence.
Qed.

(** ** C3: the length test looks at [body] *)

(** C3.  The length test reads the trimmed [body] field of every record,
    submissions included.  With a trimmed [body] shorter than 120 the
    record is never emitted, whatever its [selftext]: it is passed over as
    soon as the two earlier tests let it through.  A submission with a
    trimmed [body] of 120 characters or more that passed the earlier tests
    is emitted with its title and selftext, however short these are. *)
Theorem length_gate sf thr d b :
  field d "body" (PyStr []) = PyStr b →
  ((length (str_strip b) < 120)%nat →
   (∀ r, normalize sf thr (PyDict d) ≠ Normal r)
   ∧ (d !! ustr "subreddit" = Some (PyStr sf) →
      py_le_int (field d "score" (PyInt 0)) thr = Normal false →
      normalize sf thr (PyDict d) = Continue))
  ∧ ((120 ≤ length (str_strip b))%nat →
     d !! ustr "subreddit" = Some (PyStr sf) →
     py_le_int (field d "score" (PyInt 0)) thr = Normal false →
     ∀ t s, d !! ustr "title" = Some (PyStr t) →
            field d "selftext" (PyStr []) = PyStr s →
            normalize sf thr (PyDict d) =
            Normal {| body := str_strip t ++ ustr " " ++ str_strip s |}).
Proof.
  intros Hb. split.
  - intros Hlen. apply Nat.ltb_lt in Hlen. split.
    + intros r. rewrite normalize_dict, Hb. simpl. rewrite Hlen.
      destruct (negb _); [discriminate|].
      destruct (py_le_int _ _) as [[]| |]; discriminate.
    + intros Hsub Hscore. rewrite normalize_dict, Hb, Hscore.
      apply subreddit_test in Hsub. rewrite Hsub. simpl. by rewrite Hlen.
  - intros Hlen Hsub Hscore t s Ht Hs.
    rewrite normalize_dict, Hb, Hscore, Hs, (field_lookup _ _ _ _ Ht).
    apply subreddit_test in Hsub. rewrite Hsub. simpl.
    rewrite (proj2 (Nat.ltb_ge _ _) Hlen).
    rewrite bool_decide_eq_true_2; [reflexivity|].
    rewrite Ht. by eexists.
Qed.

Lemma length_gate_witness :
  normalize (ustr "climbharder") 20 (PyDict (parsed long_selftext_line)) = Continue
  ∧ normalize (ustr "climbharder") 20 (PyDict (parsed submission_line)) =
    Normal {| body := ustr "T S" |}.
Proof.
  split.
  - refine (proj2 (proj1 (length_gate (ustr "climbharder") 20 (parsed long_selftext_line) [] _)
                     _) _ _).
    + vm_compute. reflexivity.
    + vm_compute. lia.
    + vm_compute. reflexivity.
    + vm_compute. reflexivity.
  - refine (proj2 (length_gate (ustr "climbharder") 20 (parsed submission_line)
                     (ustr long_text) _) _ _ _ (ustr " T") (ustr "S ") _ _).
    + vm_compute. reflexivity.
    + vm_compute. lia.
    + vm_compute. reflexivity.
    + vm_compute. reflexivity.
    + vm_compute. reflexivity.
    + vm_compute. reflexivity.
Defined.

(** ** C4: the body of an emitted record *)

(** C4.  Every emitted record has the body the specification describes:
    for a record with a [title] key the trimmed title, one space and the
    trimmed selftext, and the trimmed body otherwise; and a record that
    passes the three tests, with text in the fields that are used, is
    emitted. *)
Theorem emitted_body sf thr d :
  (∀ r, normalize sf thr (PyDict d) = Normal r → r = {| body := expected_body d |})
  ∧ (d !! ustr "subreddit" = Some (PyStr sf) →
     py_le_int (field d "score" (PyInt 0)) thr = Normal false →
     (∃ b, field d "body" (PyStr []) = PyStr b ∧ (120 ≤ length (str_strip b))%nat) →
     (∃ t, field d "title" (PyStr []) = PyStr t) →
     (∃ s, field d "selftext" (PyStr []) = PyStr s) →
     normalize sf thr (PyDict d) = Normal {| body := expected_body d |}).
Proof.
  unfold expected_body, trimmed. split.
  - intros r. rewrite normalize_dict.
    destruct (negb _); [discriminate|].
    destruct (py_le_int _ _) as [[]| |]; simpl; try discriminate.
    destruct (field d "body" (PyStr [])) as [| | | |b| |]; simpl; try discriminate.
    destruct (length (str_strip b) <? 120)%nat; [discriminate|].
    destruct (bool_decide (is_Some (d !! ustr "title"))).
    + destruct (field d "title" (PyStr [])) as [| | | |t| |]; simpl; try discriminate.
      destruct (field d "selftext" (PyStr [])) as [| | | |s| |]; simpl; try discriminate.
      by intros [= <-].
    + by intros [= <-].
  - intros Hsub Hscore (b & Hb & Hlen) (t & Ht) (s & Hs).
    rewrite normalize_dict, Hscore, Hb, Ht, Hs.
    apply subreddit_test in Hsub. rewrite Hsub. simpl.
    rewrite (proj2 (Nat.ltb_ge _ _) Hlen).
    by destruct (bool_decide (is_Some (d !! ustr "title"))).
Qed.

Lemma emitted_body_witness :
  {| body := ustr "T S" |} = {| body := expected_body (parsed submission_line) |}
  ∧ normalize (ustr "climbharder") 20 (PyDict (parsed comment_line)) =
    Normal {| body := ustr long_text |}.
Proof.
  split.
  - apply (proj1 (emitted_body (ustr "climbharder") 20 (parsed submission_line))).
    vm_compute. reflexivity.
  - refine (proj2 (emitted_body (ustr "climbharder") 20 (parsed comment_line)) _ _ _ _ _).
    + vm_compute. reflexivity.
    + vm_compute. reflexivity.
    + exists (ustr ("  " +:+ long_text +:+ " ")). split; [vm_compute; reflexivity|vm_compute; lia].
    + exists []. vm_compute. reflexivity.
    + exists []. vm_compute. reflexivity.
Defined.

(** ** C2: what an emitted record has passed *)

Lemma py_le_false_exceeds v t :
  py_le_int v t = Normal false → exceeds v t ∨ v = PyFloat FNaN.
Proof.
  destruct v as [|b|n|f| | |]; simpl; try discriminate.
  - intros [= H%Z.leb_gt]. by left.
  - intros [= H%Z.leb_gt]. by left.
  - destruct f as [|neg|m e]; simpl.
    + by right.
    + intros [= ->]. by left.
    + intros [= H]. left.
      destruct (0 <=? e)%Z; apply Z.leb_gt in H; by apply Z.ltb_lt.
Qed.

Lemma normalize_Normal sf thr post r :
  normalize sf thr post = Normal r →
  ∃ d, post = PyDict d
       ∧ d !! ustr "subreddit" = Some (PyStr sf)
       ∧ py_le_int (field d "score" (PyInt 0)) thr = Normal false
       ∧ ∃ b, field d "body" (PyStr []) = PyStr b ∧ (120 ≤ length (str_strip b))%nat.
Proof.
  destruct post as [| | | | | |d]; try discriminate.
  rewrite normalize_dict. intros H. exists d. split; [reflexivity|].
  destruct (py_eq_str (field d "subreddit" PyNone) sf) eqn:Hsub; [|discriminate].
  apply subreddit_test in Hsub. split; [exact Hsub|]. simpl in H.
  destruct (py_le_int _ _) as [[]| |]; simpl in H; try discriminate.
  split; [reflexivity|].
  destruct (field d "body" (PyStr [])) as [| | | |b| |]; simpl in H; try discriminate.
  exists b. split; [reflexivity|].
  destruct (length (str_strip b) <? 120)%nat eqn:Hlen; [discriminate|].
  by apply Nat.ltb_ge.
Qed.

Lemma line_record_Normal json_loads sf thr line r :
  line_record json_loads sf thr line = Normal r →
  ∃ post, json_loads line = Normal post ∧ normalize sf thr post = Normal r.
Proof.
  unfold line_record. destruct (bool_decide _); [discriminate|].
  destruct (json_loads line) as [post| |e]; simpl; [|discriminate|by destruct e].
  intros H. exists post. split; [reflexivity|].
  destruct (normalize sf thr post) as [r'| |e]; [congruence|discriminate|by destruct e].
Qed.

Lemma records_elem r cs : r ∈ fst (records cs) → Normal r ∈ cs.
Proof.
  induction cs as [|c cs IH]; simpl.
  - intros H. by apply elem_of_nil in H.
  - destruct c as [r'| |e].
    + destruct (records cs) as [l c']. simpl in *.
      intros [->|H]%elem_of_cons; [left|right; auto].
    + intros H. right. auto.
    + intros H. by apply elem_of_nil in H.
Qed.

(** C2, as the code has it.  After a run on an existing input, the output
    file holds the lines of a sequence of records, and each of them comes
    from a complete line of the stream that parsed to an object whose
    [subreddit] field is there and is the target string, whose score (0
    when absent) is not at most the threshold, and whose trimmed [body]
    has 120 characters or more.  The score then exceeds the threshold,
    unless it is NaN. *)
Theorem emitted_records_passed_tests
    (json_loads : bytes → completion value)
    (stream_reads : bytes → list read_result)
    (input_path output_path : string) sf thr (w : world) :
  is_Some (files w !! input_path) →
  let f := default [] (<[output_path := []]> (files w) !! input_path) in
  let lines := complete_lines (concat (fst (delivered (stream_reads f)))) in
  ∃ rs,
    files (fst (process_pushshift_zst json_loads stream_reads input_path
                  output_path sf thr w)) !! output_path
    = Some (concat (map output_line rs))
    ∧ ∀ r, r ∈ rs →
        ∃ line d,
          line ∈ lines
          ∧ json_loads line = Normal (PyDict d)
          ∧ normalize sf thr (PyDict d) = Normal r
          ∧ d !! ustr "subreddit" = Some (PyStr sf)
          ∧ (exceeds (field d "score" (PyInt 0)) thr
             ∨ field d "score" (PyInt 0) = PyFloat FNaN)
          ∧ ∃ b, field d "body" (PyStr []) = PyStr b
                 ∧ (120 ≤ length (str_strip b))%nat.
Proof.
  intros Hin f lines. subst f lines. rewrite run_output by done. cbn zeta.
  destruct (records _) as [rs c] eqn:Hrs.
  exists rs. split.
  - simpl. apply lookup_insert_eq.
  - intros r Hr.
    assert (Hc := records_elem r _ ltac:(rewrite Hrs; exact Hr)).
    apply list_elem_of_In, in_map_iff in Hc as (line & Hline & Hl).
    apply list_elem_of_In in Hl.
    apply line_record_Normal in Hline as (post & Hpost & Hnorm).
    destruct (normalize_Normal _ _ _ _ Hnorm) as (d & -> & Hsub & Hscore & Hbody).
    exists line, d. repeat split; try assumption.
    by apply py_le_false_exceeds.
Qed.

Lemma emitted_records_passed_tests_witness :
  is_Some (files example_world !! "in.zst")
  ∧ ∃ rs,
      files (fst (process_pushshift_zst Json.loads (stored_reads 64) "in.zst"
                    "out.jsonl" (ustr "climbharder") 20 example_world)) !! "out.jsonl"
      = Some (concat (map output_line rs))
      ∧ ∀ r, r ∈ rs →
          ∃ line d,
            line ∈ complete_lines example_archive
            ∧ Json.loads line = Normal (PyDict d)
            ∧ normalize (ustr "climbharder") 20 (PyDict d) = Normal r
            ∧ d !! ustr "subreddit" = Some (PyStr (ustr "climbharder"))
            ∧ (exceeds (field d "score" (PyInt 0)) 20
               ∨ field d "score" (PyInt 0) = PyFloat FNaN)
            ∧ ∃ b, field d "body" (PyStr []) = PyStr b
                   ∧ (120 ≤ length (str_strip b))%nat.
Proof.
  assert (H : is_Some (files example_world !! "in.zst")).
  { eexists. vm_compute. reflexivity. }
  split; [exact H|].
  exact (emitted_records_passed_tests Json.loads (stored_reads 64) "in.zst"
           "out.jsonl" (ustr "climbharder") 20 example_world H).
Defined.

(** C2 as it is stated fails on a score that is NaN, which [json.loads]
    accepts: the record is emitted, and its score does not exceed the
    threshold. *)
Lemma nan_score_emitted :
  let w := World {[ "in.zst" := nan_score_line ++ [x0a] ]} [] in
  let d := parsed nan_score_line in
  Json.loads nan_score_line = Normal (PyDict d)
  ∧ d !! ustr "score" = Some (PyFloat FNaN)
  ∧ normalize (ustr "climbharder") 20 (PyDict d) = Normal {| body := ustr long_text |}
  ∧ process_pushshift_zst Json.loads (stored_reads 64) "in.zst" "out.jsonl"
      (ustr "climbharder") 20 w
    = (World (<["out.jsonl" := output_line {| body := ustr long_text |}]> (files w)) [],
       Normal tt)
  ∧ ¬ exceeds (field d "score" (PyInt 0)) 20.
Proof.
  repeat split; try (vm_compute; reflexivity).
  vm_compute. discriminate.
Qed.

(** ** C7: the score test *)

Lemma at_most_le v t : at_most v t → py_le_int v t = Normal true.
Proof.
  destruct v as [|b|n|f| | |]; simpl; try done.
  - intros H. f_equal. by apply Z.leb_le.
  - intros H. f_equal. by apply Z.leb_le.
  - destruct f as [|neg|m e]; simpl; [done|by intros ->|].
    intros [H1 H2]. f_equal.
    destruct (Z.leb_spec 0 e); apply Z.leb_le; auto.
Qed.

Lemma exceeds_not_le v t : exceeds v t → py_le_int v t = Normal false.
Proof.
  destruct v as [|b|n|f| | |]; simpl; try done.
  - intros H. f_equal. by apply Z.leb_gt.
  - intros H. f_equal. by apply Z.leb_gt.
  - destruct f as [|neg|m e]; simpl; [done|by intros ->%negb_true_iff|].
    intros H. f_equal.
    destruct (0 <=? e)%Z; apply Z.ltb_lt in H; by apply Z.leb_gt.
Qed.

(** C7, as the code has it.  The score, 0 when the field is absent, is
    tested with [<=]: a record whose score is at most the threshold is
    passed over (an integer [n] with [n <= threshold] in particular), so a
    record without score is passed over when the threshold is not
    negative.  A record that is emitted has a score that exceeds the
    threshold, or a score that is NaN, which is neither at most the
    threshold nor more.  A score that exceeds the threshold passes the
    test: the record is kept when the other tests pass, and so is a record
    without score when the threshold is negative. *)
Theorem score_gate sf thr d :
  (at_most (field d "score" (PyInt 0)) thr → normalize sf thr (PyDict d) = Continue)
  ∧ (∀ n, d !! ustr "score" = Some (PyInt n) → (n ≤ thr)%Z →
          normalize sf thr (PyDict d) = Continue)
  ∧ (d !! ustr "score" = None → (0 ≤ thr)%Z →
     normalize sf thr (PyDict d) = Continue)
  ∧ (∀ r, normalize sf thr (PyDict d) = Normal r →
          exceeds (field d "score" (PyInt 0)) thr
          ∨ field d "score" (PyInt 0) = PyFloat FNaN)
  ∧ (∀ b, exceeds (field d "score" (PyInt 0)) thr →
          d !! ustr "subreddit" = Some (PyStr sf) →
          field d "body" (PyStr []) = PyStr b →
          (120 ≤ length (str_strip b))%nat →
          d !! ustr "title" = None →
          normalize sf thr (PyDict d) = Normal {| body := str_strip b |})
  ∧ (∀ b, d !! ustr "score" = None → (thr < 0)%Z →
          d !! ustr "subreddit" = Some (PyStr sf) →
          field d "body" (PyStr []) = PyStr b →
          (120 ≤ length (str_strip b))%nat →
          d !! ustr "title" = None →
          normalize sf thr (PyDict d) = Normal {| body := str_strip b |}).
Proof.
  assert (Hle : at_most (field d "score" (PyInt 0)) thr →
                normalize sf thr (PyDict d) = Continue).
  { intros H%at_most_le. rewrite normalize_dict, H.
    by destruct (negb (py_eq_str (field d "subreddit" PyNone) sf)). }
  assert (Hkept : ∀ b, exceeds (field d "score" (PyInt 0)) thr →
                       d !! ustr "subreddit" = Some (PyStr sf) →
                       field d "body" (PyStr []) = PyStr b →
                       (120 ≤ length (str_strip b))%nat →
                       d !! ustr "title" = None →
                       normalize sf thr (PyDict d) = Normal {| body := str_strip b |}).
  { intros b Hgt%exceeds_not_le Hsub Hb Hlen Htitle.
    rewrite normalize_dict, Hgt, Hb.
    apply subreddit_test in Hsub. rewrite Hsub. simpl.
    rewrite (proj2 (Nat.ltb_ge _ _) Hlen).
    rewrite bool_decide_eq_false_2; [reflexivity|].
    rewrite Htitle. by intros [? ?]. }
  split; [exact Hle|]. split; [|split; [|split; [|split; [exact Hkept|]]]].
  - intros n Hn Hle'. apply Hle. by rewrite (field_lookup _ _ _ _ Hn).
  - intros Hs Ht. apply Hle. by rewrite (field_default _ _ _ Hs).
  - intros r Hr. apply normalize_Normal in Hr as (d' & [= <-] & _ & Hscore & _).
    by apply py_le_false_exceeds.
  - intros b Hs Ht. apply Hkept. by rewrite (field_default _ _ _ Hs).
Qed.

Lemma score_gate_witness :
  normalize (ustr "climbharder") 20 (PyDict (parsed float_score_line)) = Continue
  ∧ normalize (ustr "climbharder") 20 (PyDict (parsed low_score_line)) = Continue
  ∧ normalize (ustr "climbharder") 20 (PyDict (parsed no_score_line)) = Continue
  ∧ (exceeds (field (parsed comment_line) "score" (PyInt 0)) 20
     ∨ field (parsed comment_line) "score" (PyInt 0) = PyFloat FNaN)
  ∧ normalize (ustr "climbharder") 20 (PyDict (parsed comment_line)) =
    Normal {| body := ustr long_text |}
  ∧ normalize (ustr "climbharder") (-1) (PyDict (parsed no_score_line)) =
    Normal {| body := ustr long_text |}.
Proof.
  split; [|split; [|split; [|split; [|split]]]].
  - apply (proj1 (score_gate (ustr "climbharder") 20 (parsed float_score_line))).
    assert (E : field (parsed float_score_line) "score" (PyInt 0)
                = PyFloat (FFinite 5629499534213120 (-48))) by (vm_compute; reflexivity).
    rewrite E. simpl. lia.
  - apply (proj1 (proj2 (score_gate (ustr "climbharder") 20 (parsed low_score_line))) 5%Z).
    + vm_compute. reflexivity.
    + lia.
  - apply (proj1 (proj2 (proj2 (score_gate (ustr "climbharder") 20 (parsed no_score_line))))).
    + vm_compute. reflexivity.
    + lia.
  - apply (proj1 (proj2 (proj2 (proj2
             (score_gate (ustr "climbharder") 20 (parsed comment_line)))))
             {| body := ustr long_text |}).
    vm_compute. reflexivity.
  - refine (proj1 (proj2 (proj2 (proj2 (proj2
              (score_gate (ustr "climbharder") 20 (parsed comment_line))))))
              (ustr ("  " +:+ long_text +:+ " ")) _ _ _ _ _).
    + assert (E : field (parsed comment_line) "score" (PyInt 0) = PyInt 25)
        by (vm_compute; reflexivity).
      rewrite E. simpl. lia.
    + vm_compute. reflexivity.
    + vm_compute. reflexivity.
    + vm_compute. lia.
    + vm_compute. reflexivity.
  - refine (proj2 (proj2 (proj2 (proj2 (proj2
              (score_gate (ustr "climbharder") (-1) (parsed no_score_line))))))
              (ustr long_text) _ _ _ _ _ _).
    + vm_compute. reflexivity.
    + lia.
    + vm_compute. reflexivity.
    + vm_compute. reflexivity.
    + vm_compute. lia.
    + vm_compute. reflexivity.
Defined.

(** C7 as it is stated fails on a score that is NaN: the record passes
    the score test and is emitted, although its score is not greater than
    the threshold (nor at most the threshold). *)
Lemma nan_score_passes_score_test :
  let d := parsed nan_score_line in
  field d "score" (PyInt 0) = PyFloat FNaN
  ∧ normalize (ustr "climbharder") 20 (PyDict d) = Normal {| body := ustr long_text |}
  ∧ ¬ exceeds (field d "score" (PyInt 0)) 20
  ∧ ¬ at_most (field d "score" (PyInt 0)) 20.
Proof.
  assert (E : field (parsed nan_score_line) "score" (PyInt 0) = PyFloat FNaN)
    by (vm_compute; reflexivity).
  cbv zeta. rewrite E. repeat split; try (vm_compute; reflexivity).
  - simpl. discriminate.
  - simpl. tauto.
Qed.

(** ** C9: the order of the output *)




(** ** C1: lines that are not JSON *)

Lemma records_skip cs1 cs2 : records (cs1 ++ Continue :: cs2) = records (cs1 ++ cs2).
Proof.
  induction cs1 as [|c cs1 IH]; simpl; [reflexivity|].
  destruct c; [by rewrite IH|exact IH|reflexivity].
Qed.

(** A line on which [json.loads] raises [JSONDecodeError] leaves no trace:
    the loop does with it what it does without it. *)
Lemma json_decode_error_skipped (json_loads : bytes → completion value)
    (out : string) sf thr (before after : list bytes) (bad : bytes) (w : world) :
  json_loads bad = Raise JSONDecodeError →
  for_in (before ++ bad :: after) (process_line json_loads out sf thr) w
  = for_in (before ++ after) (process_line json_loads out sf thr) w.
Proof.
  intros Hbad. rewrite !for_in_records, !map_app. cbn [map].
  assert (line_record json_loads sf thr bad = Continue) as ->.
  { unfold line_record. rewrite Hbad. by destruct (bool_decide _). }
  by rewrite records_skip.
Qed.

(** C1 fails on the code.  A line that is not UTF-8 makes [json.loads]
    raise [UnicodeDecodeError], which the [except] clause does not catch:
    the run ends there with exit status 1, and the valid line after it is
    never written.  The same archive without that line gives both records.
    A line that is JSON but not an object ends the run with
    [AttributeError]. *)
Theorem undecodable_line_aborts :
  let r1 := {| body := ustr long_text |} in
  let r2 := {| body := ustr "T S" |} in
  let good := comment_line ++ [x0a] ++ submission_line ++ [x0a] in
  let bad := comment_line ++ [x0a] ++ latin1_line ++ [x0a] ++ submission_line ++ [x0a] in
  let bad' := comment_line ++ [x0a] ++ array_line ++ [x0a] ++ submission_line ++ [x0a] in
  let run content :=
    main Json.loads (stored_reads 64) ["filter_pushshift.py"; "in.zst"; "out.jsonl"]
      (World {[ "in.zst" := content ]} []) in
  Json.loads latin1_line = Raise UnicodeDecodeError
  ∧ line_record Json.loads (ustr "climbharder") 20 latin1_line = Raise UnicodeDecodeError
  ∧ line_record Json.loads (ustr "climbharder") 20 array_line = Raise AttributeError
  ∧ files (fst (run good)) !! "out.jsonl" = Some (output_line r1 ++ output_line r2)
  ∧ snd (run good) = 0%Z
  ∧ files (fst (run bad)) !! "out.jsonl" = Some (output_line r1)
  ∧ snd (run bad) = 1%Z
  ∧ files (fst (run bad')) !! "out.jsonl" = Some (output_line r1)
  ∧ snd (run bad') = 1%Z.
Proof. repeat split; vm_compute; reflexivity. Qed.

(** ** C6: the input is missing *)

(** C6.  When the input path names no file, the function prints the
    message and returns; the files are as they were, so no output file
    has been created or opened, and the process ends with status 0. *)
Theorem missing_input (json_loads : bytes → completion value)
    (stream_reads : bytes → list read_result)
    (prog input_path output_path : string) sf thr (w : world) :
  files w !! input_path = None →
  let w' := World (files w)
              (stdout w ++ ["Error: File '" +:+ input_path +:+ "' not found."]) in
  process_pushshift_zst json_loads stream_reads input_path output_path sf thr w
  = (w', Normal tt)
  ∧ main json_loads stream_reads [prog; input_path; output_path] w = (w', 0%Z)
  ∧ files w' !! output_path = files w !! output_path.
Proof.
  intros Hin w'. split; [by apply run_missing|]. split; [|reflexivity].
  unfold main. by rewrite run_missing.
Qed.

Lemma missing_input_witness :
  files example_world !! "absent.zst" = None
  ∧ main Json.loads (stored_reads 64) ["filter_pushshift.py"; "absent.zst"; "new.jsonl"]
      example_world
    = (World (files example_world) ["Error: File 'absent.zst' not found."], 0%Z)
  ∧ files example_world !! "new.jsonl" = None.
Proof.
  assert (H : files example_world !! "absent.zst" = None) by (vm_compute; reflexivity).
  split; [exact H|]. split.
  - exact (proj1 (proj2 (missing_input Json.loads (stored_reads 64) "filter_pushshift.py"
                           "absent.zst" "new.jsonl" (ustr "climbharder") 20
                           example_world H))).
  - vm_compute. reflexivity.
Defined.

(** ** C10: the output file is opened first *)

Lemma records_none cs :
  (∀ r, Normal r ∉ cs) → fst (records cs) = [].
Proof.
  induction cs as [|c cs IH]; intros H; simpl; [reflexivity|].
  destruct c as [r| |e].
  - destruct (H r). left.
  - apply IH. intros r Hr. apply (H r). by right.
  - reflexivity.
Qed.

(** C10.  When the input exists, the run is the loop over the reader
    started in the world in which the output file has just been made
    empty.  So whatever the stream holds, and however the run ends, the
    output file exists afterwards and holds the records of this run and
    nothing of what it held before; it is empty when no line has a
    record, and when the decompressor raises on the first read. *)
Theorem output_opened_first (json_loads : bytes → completion value)
    (stream_reads : bytes → list read_result)
    (input_path output_path : string) sf thr (w : world) :
  is_Some (files w !! input_path) →
  let w1 := World (<[output_path := []]> (files w)) (stdout w) in
  let reads := stream_reads (default [] (files w1 !! input_path)) in
  let cs := map (line_record json_loads sf thr)
              (complete_lines (concat (fst (delivered reads)))) in
  let run := process_pushshift_zst json_loads stream_reads input_path output_path
               sf thr w in
  run = read_loop reads [] (process_line json_loads output_path sf thr) w1
  ∧ files (fst run) = <[output_path := concat (map output_line (fst (records cs)))]> (files w)
  ∧ stdout (fst run) = stdout w
  ∧ ((∀ r, Normal r ∉ cs) → files (fst run) !! output_path = Some [])
  ∧ (∀ rest, reads = ReadRaises :: rest → run = (w1, Raise ZstdError)).
Proof.
  intros Hin w1 reads cs run.
  assert (Hloop : run = read_loop reads [] (process_line json_loads output_path sf thr) w1)
    by (by apply run_existing).
  assert (Hout : run =
                 (World (<[output_path := concat (map output_line (fst (records cs)))]> (files w))
                    (stdout w),
                  snd (records cs) ≫= λ _, snd (delivered reads))).
  { unfold run, cs, reads, w1. rewrite run_output by done. cbn zeta. cbn [files].
    by destruct (records _). }
  split; [exact Hloop|]. rewrite Hout. cbn [fst files stdout].
  split; [reflexivity|]. split; [reflexivity|]. split.
  - intros Hnone. rewrite records_none by done. apply lookup_insert_eq.
  - intros rest Hrest. rewrite <- Hout, Hloop, Hrest. reflexivity.
Qed.

Lemma output_opened_first_witness :
  is_Some (files example_world !! "in.zst")
  ∧ files (fst (process_pushshift_zst Json.loads (λ _, [ReadRaises]) "in.zst" "out.jsonl"
                  (ustr "climbharder") 20 example_world))
    = <["out.jsonl" := []]> (files example_world).
Proof.
  assert (H : is_Some (files example_world !! "in.zst")).
  { eexists. vm_compute. reflexivity. }
  split; [exact H|].
  exact (proj1 (proj2 (output_opened_first Json.loads (λ _, [ReadRaises]) "in.zst"
                         "out.jsonl" (ustr "climbharder") 20 example_world H))).
Defined.

(** ** C8: determinism *)

(** C8.  The output file and the way the run ends are determined by the
    content of the input file and the configuration: two runs that find
    the same input file give the same output file, whatever else differs
    between the two worlds (an output file left by an earlier run, other
    files, what has been printed). *)
Theorem run_deterministic (json_loads : bytes → completion value)
    (stream_reads : bytes → list read_result)
    (input_path output_path : string) sf thr (w w' : world) :
  is_Some (files w !! input_path) →
  files w !! input_path = files w' !! input_path →
  let run := process_pushshift_zst json_loads stream_reads input_path output_path sf thr in
  files (fst (run w)) !! output_path = files (fst (run w')) !! output_path
  ∧ snd (run w) = snd (run w').
Proof.
  intros Hin Heq run. unfold run.
  rewrite !run_output by (done || by rewrite <- Heq). cbn zeta.
  assert (<[output_path := []]> (files w) !! input_path
          = <[output_path := []]> (files w') !! input_path) as ->.
  { rewrite !lookup_insert. by destruct (decide (output_path = input_path)). }
  destruct (records _) as [rs c]. simpl. by rewrite !lookup_insert_eq.
Qed.

Lemma run_deterministic_witness :
  is_Some (files example_world !! "in.zst")
  ∧ files example_world !! "in.zst" = files other_world !! "in.zst"
  ∧ let run := process_pushshift_zst Json.loads (stored_reads 64) "in.zst" "out.jsonl"
                 (ustr "climbharder") 20 in
    files (fst (run example_world)) !! "out.jsonl"
    = files (fst (run other_world)) !! "out.jsonl"
    ∧ snd (run example_world) = snd (run other_world).
Proof.
  assert (H : is_Some (files example_world !! "in.zst")).
  { eexists. vm_compute. reflexivity. }
  assert (H' : files example_world !! "in.zst" = files other_world !! "in.zst").
  { vm_compute. reflexivity. }
  split; [exact H|]. split; [exact H'|].
  apply run_deterministic; assumption.
Defined.

(** A second run after the first leaves the files as the first did. *)
Corollary run_twice (json_loads : bytes → completion value)
    (stream_reads : bytes → list read_result)
    (input_path output_path : string) sf thr (w : world) :
  input_path ≠ output_path →
  let run := process_pushshift_zst json_loads stream_reads input_path output_path sf thr in
  files (fst (run (fst (run w)))) = files (fst (run w))
  ∧ snd (run (fst (run w))) = snd (run w).
Proof.
  intros Hne run. unfold run.
  destruct (files w !! input_path) as [content|] eqn:Hin.
  - assert (H1 : is_Some (files w !! input_path)) by (by rewrite Hin).
    rewrite (run_output _ _ _ _ _ _ w) by done. cbn zeta.
    rewrite lookup_insert_ne by done.
    destruct (records _) as [rs c] eqn:Hrs. cbn [fst snd].
    rewrite run_output by (cbn [files]; by rewrite lookup_insert_ne).
    cbn zeta. cbn [files stdout]. rewrite insert_insert_eq, !lookup_insert_ne by done.
    rewrite Hrs. cbn [fst snd files]. by rewrite insert_insert_eq.
  - rewrite (run_missing _ _ _ _ _ _ w) by done. cbn [fst snd].
    by rewrite run_missing.
Qed.

(** * Further properties of the script *)

(** ** The entry point *)

(** Any number of arguments other than two: the usage line is printed,
    the status is 1, and no file is touched (source lines 55-57). *)
Theorem usage_error (json_loads : bytes → completion value)
    (stream_reads : bytes → list read_result) (argv : list string) (w : world) :
  length argv ≠ 3 →
  main json_loads stream_reads argv w
  = (World (files w)
       (stdout w
        ++ ["Usage: python filter_pushshift.py <input_file.zst> <output_file.jsonl>"]),
     1%Z).
Proof.
  intros Hlen. destruct argv as [|a0 [|a1 [|a2 [|a3 argv]]]]; try reflexivity.
  by destruct Hlen.
Qed.

Lemma usage_error_witness :
  length ["filter_pushshift.py"; "in.zst"] ≠ 3
  ∧ main Json.loads (stored_reads 64) ["filter_pushshift.py"; "in.zst"] example_world
    = (World (files example_world)
         ["Usage: python filter_pushshift.py <input_file.zst> <output_file.jsonl>"],
       1%Z).
Proof.
  assert (H : length ["filter_pushshift.py"; "in.zst"] ≠ 3) by (simpl; lia).
  split; [exact H|].
  exact (usage_error Json.loads (stored_reads 64) ["filter_pushshift.py"; "in.zst"]
           example_world H).
Defined.

(** ** The files a run leaves alone *)

(** A run changes no file but the one at the output path: the input file
    (when it is another file) and every other file are as they were,
    whether the input exists or not and however the run ends. *)
Theorem run_frame (json_loads : bytes → completion value)
    (stream_reads : bytes → list read_result)
    (input_path output_path path : string) sf thr (w : world) :
  path ≠ output_path →
  files (fst (process_pushshift_zst json_loads stream_reads input_path output_path
                sf thr w)) !! path
  = files w !! path.
Proof.
  intros Hne. destruct (files w !! input_path) as [content|] eqn:Hin.
  - rewrite run_output by (by rewrite Hin). cbn zeta.
    destruct (records _) as [rs c]. simpl. by rewrite lookup_insert_ne.
  - by rewrite run_missing.
Qed.

Lemma run_frame_witness :
  "in.zst" ≠ "out.jsonl"
  ∧ files (fst (process_pushshift_zst Json.loads (stored_reads 64) "in.zst" "out.jsonl"
                  (ustr "climbharder") 20 example_world)) !! "in.zst"
    = files example_world !! "in.zst".
Proof.
  assert (H : "in.zst" ≠ "out.jsonl") by discriminate.
  split; [exact H|].
  exact (run_frame Json.loads (stored_reads 64) "in.zst" "out.jsonl" "in.zst"
           (ustr "climbharder") 20 example_world H).
Defined.

Lemma run_twice_witness :
  "in.zst" ≠ "out.jsonl"
  ∧ let run := process_pushshift_zst Json.loads (stored_reads 64) "in.zst" "out.jsonl"
                 (ustr "climbharder") 20 in
    files (fst (run (fst (run example_world)))) = files (fst (run example_world))
    ∧ snd (run (fst (run example_world))) = snd (run example_world).
Proof.
  assert (H : "in.zst" ≠ "out.jsonl") by discriminate.
  split; [exact H|].
  apply run_twice; assumption.
Defined.

(** ** Lines that are passed over *)

Lemma json_decode_error_skipped_witness :
  Json.loads truncated_line = Raise JSONDecodeError
  ∧ for_in ([comment_line] ++ truncated_line :: [submission_line])
      (process_line Json.loads "out.jsonl" (ustr "climbharder") 20) example_world
    = for_in ([comment_line] ++ [submission_line])
        (process_line Json.loads "out.jsonl" (ustr "climbharder") 20) example_world.
Proof.
  assert (H : Json.loads truncated_line = Raise JSONDecodeError) by (vm_compute; reflexivity).
  split; [exact H|].
  exact (json_decode_error_skipped Json.loads "out.jsonl" (ustr "climbharder") 20
           [comment_line] [submission_line] truncated_line example_world H).
Defined.

Lemma drop_while_nil {A} (p : A → bool) (l : list A) :
  drop_while p l = [] ↔ forallb p l = true.
Proof.
  induction l as [|x l IH]; simpl; [done|].
  destruct (p x); simpl; [exact IH|]. split; discriminate.
Qed.

Lemma drop_while_head {A} (p : A → bool) (l : list A) x l' :
  drop_while p l = x :: l' → p x = false.
Proof.
  induction l as [|y l IH]; simpl; [discriminate|].
  destruct (p y) eqn:Hy; [exact IH|]. by intros [= <- _].
Qed.

(** [strip] leaves nothing exactly when every character is white. *)
Lemma strip_with_nil {A} (p : A → bool) (s : list A) :
  strip_with p s = [] ↔ forallb p s = true.
Proof.
  unfold strip_with. split.
  - intros H. apply (f_equal (@rev A)) in H. rewrite rev_involutive in H. simpl in H.
    apply drop_while_nil in H.
    destruct (drop_while p s) as [|x l] eqn:Hd; [by apply drop_while_nil|].
    apply drop_while_head in Hd.
    rewrite forallb_forall in H. specialize (H x).
    rewrite <- in_rev in H. rewrite H in Hd by (by left). discriminate.
  - intros H. apply drop_while_nil in H. by rewrite H.
Qed.

(** A line of ASCII white space only (the empty line included) is passed
    over before it is parsed: whatever [json.loads] would do with it, the
    loop does with it what it does without it (source lines 21-22). *)
Theorem blank_line_skipped (json_loads : bytes → completion value)
    (out : string) sf thr (before after : list bytes) (blank : bytes) (w : world) :
  forallb bytes_isspace blank = true →
  process_line json_loads out sf thr blank w = (w, Continue)
  ∧ for_in (before ++ blank :: after) (process_line json_loads out sf thr) w
    = for_in (before ++ after) (process_line json_loads out sf thr) w.
Proof.
  intros Hblank. apply (strip_with_nil bytes_isspace) in Hblank.
  assert (Hrec : line_record json_loads sf thr blank = Continue).
  { unfold line_record, bytes_strip. by rewrite Hblank. }
  split.
  - by rewrite process_line_record, Hrec.
  - rewrite !for_in_records, !map_app. cbn [map]. by rewrite Hrec, records_skip.
Qed.

Lemma blank_line_skipped_witness :
  forallb bytes_isspace [x20; x09; x0d] = true
  ∧ process_line (λ _, Raise TypeError) "out.jsonl" (ustr "climbharder") 20
      [x20; x09; x0d] example_world
    = (example_world, Continue).
Proof.
  assert (H : forallb bytes_isspace [x20; x09; x0d] = true) by reflexivity.
  split; [exact H|].
  exact (proj1 (blank_line_skipped (λ _, Raise TypeError) "out.jsonl" (ustr "climbharder")
                  20 [] [] [x20; x09; x0d] example_world H)).
Defined.

(** ** The end of the stream *)

(** The loop ends at the first empty chunk: what the reader would give
    after it is never asked for (the sentinel of [iter], source line
    15). *)
Theorem reads_after_empty_chunk {S} (reads reads' : list read_result) (buffer : bytes)
    (each_line : bytes → action S unit) (s : S) :
  read_loop (reads ++ ReadReturns [] :: reads') buffer each_line s
  = read_loop reads buffer each_line s.
Proof.
  revert buffer s. induction reads as [|r reads IH]; intros buffer s; [reflexivity|].
  destruct r as [[|b chunk]|]; try reflexivity.
  rewrite <- app_comm_cons, !read_loop_cons by done.
  unfold mbind, action_bind.
  destruct (for_in _ each_line s) as [s' [[]| |e]]; try reflexivity.
  apply IH.
Qed.

Lemma delivered_then_raise (chunks : list bytes) (rest : list read_result) :
  Forall (λ c, c ≠ []) chunks →
  delivered ((ReadReturns <$> chunks) ++ ReadRaises :: rest) = (chunks, Raise ZstdError).
Proof.
  induction 1 as [|chunk chunks Hc _ IH]; [reflexivity|].
  destruct chunk as [|b chunk]; [done|].
  rewrite fmap_cons, <- app_comm_cons. cbn [delivered]. by rewrite IH.
Qed.

Lemma records_completion cs :
  snd (records cs) = Normal tt ∨ ∃ e, snd (records cs) = Raise e.
Proof.
  induction cs as [|c cs IH]; simpl; [by left|].
  destruct c as [r| |e]; [|exact IH|right; eauto].
  by destruct (records cs).
Qed.

(** When the decompressor raises after some chunks, the complete lines of
    these chunks have gone through the loop, the output file holds their
    records, the partial line in the buffer is lost, and the run ends with
    an exception: the one of a line, or else the decompressor's; the
    status of the process is 1 (source lines 11-20). *)
Theorem corrupt_stream (json_loads : bytes → completion value)
    (stream_reads : bytes → list read_result)
    (prog input_path output_path : string) sf thr (w : world)
    (chunks : list bytes) (rest : list read_result) :
  is_Some (files w !! input_path) →
  stream_reads (default [] (<[output_path := []]> (files w) !! input_path))
  = (ReadReturns <$> chunks) ++ ReadRaises :: rest →
  Forall (λ c, c ≠ []) chunks →
  (let cs := map (line_record json_loads sf thr) (complete_lines (concat chunks)) in
   process_pushshift_zst json_loads stream_reads input_path output_path sf thr w
   = (World (<[output_path := concat (map output_line (fst (records cs)))]> (files w))
        (stdout w),
      match snd (records cs) with
      | Raise e => Raise e
      | _ => Raise ZstdError
      end))
  ∧ snd (main json_loads stream_reads [prog; input_path; output_path] w) = 1%Z.
Proof.
  intros Hin Hreads Hne.
  assert (Hrun : ∀ sf thr,
    let cs := map (line_record json_loads sf thr) (complete_lines (concat chunks)) in
    process_pushshift_zst json_loads stream_reads input_path output_path sf thr w
    = (World (<[output_path := concat (map output_line (fst (records cs)))]> (files w))
         (stdout w),
       match snd (records cs) with
       | Raise e => Raise e
       | _ => Raise ZstdError
       end)).
  { intros sf' thr'. rewrite run_output by done. cbn zeta.
    rewrite Hreads, delivered_then_raise by done. cbn [fst snd].
    destruct (records_completion
                (map (line_record json_loads sf' thr') (complete_lines (concat chunks))))
      as [Hc|[e Hc]]; destruct (records _) as [rs c]; simpl in Hc; by subst c. }
  split; [apply Hrun|].
  unfold main. rewrite Hrun. cbn zeta.
  by destruct (snd (records _)).
Qed.

Lemma corrupt_stream_witness :
  is_Some (files example_world !! "in.zst")
  ∧ Forall (λ c, c ≠ []) (chunks_of 1000 64 example_archive)
  ∧ process_pushshift_zst Json.loads (failing_reads 64) "in.zst" "out.jsonl"
      (ustr "climbharder") 20 example_world
    = (World (<["out.jsonl" := output_line {| body := ustr long_text |}
                               ++ output_line {| body := ustr "T S" |}]>
                (files example_world)) [],
       Raise ZstdError).
Proof.
  assert (H : is_Some (files example_world !! "in.zst")).
  { eexists. vm_compute. reflexivity. }
  assert (Hne : Forall (λ c, c ≠ []) (chunks_of 1000 64 example_archive)).
  { vm_compute. repeat constructor; discriminate. }
  split; [exact H|]. split; [exact Hne|].
  refine (proj1 (corrupt_stream Json.loads (failing_reads 64) "filter_pushshift.py"
                   "in.zst" "out.jsonl" (ustr "climbharder") 20 example_world
                   (chunks_of 1000 64 example_archive) [] H _ Hne)).
  vm_compute. reflexivity.
Defined.

Lemma not_elem_of_forallb (x : byte) (l : bytes) :
  forallb (λ b, negb (Byte.eqb b x)) l = true → x ∉ l.
Proof.
  intros H Hx. rewrite forallb_forall in H.
  apply list_elem_of_In, H in Hx.
  by rewrite (proj2 (byte_eqb_eq x x) eq_refl) in Hx.
Qed.

(** A stream without any newline, the empty stream included, has no
    complete line: nothing is parsed, the output file is created empty and
    the run ends normally.  An archive whose last line lacks its newline
    loses that line in this way. *)
Theorem stream_without_newline (json_loads : bytes → completion value)
    (stream_reads : bytes → list read_result)
    (input_path output_path : string) sf thr (w : world) :
  is_Some (files w !! input_path) →
  let reads := stream_reads (default [] (<[output_path := []]> (files w) !! input_path)) in
  snd (delivered reads) = Normal tt →
  x0a ∉ concat (fst (delivered reads)) →
  process_pushshift_zst json_loads stream_reads input_path output_path sf thr w
  = (World (<[output_path := []]> (files w)) (stdout w), Normal tt).
Proof.
  intros Hin reads Hend Hnl. subst reads.
  rewrite run_output by done. cbn zeta. rewrite Hend.
  unfold complete_lines. by rewrite bytes_split_none.
Qed.

Lemma stream_without_newline_witness :
  let w := World {[ "in.zst" := comment_line ]} [] in
  is_Some (files w !! "in.zst")
  ∧ process_pushshift_zst Json.loads (stored_reads 64) "in.zst" "out.jsonl"
      (ustr "climbharder") 20 w
    = (World (<["out.jsonl" := []]> (files w)) [], Normal tt).
Proof.
  intros w.
  assert (H : is_Some (files w !! "in.zst")) by (eexists; vm_compute; reflexivity).
  split; [exact H|].
  refine (stream_without_newline Json.loads (stored_reads 64) "in.zst" "out.jsonl"
            (ustr "climbharder") 20 w H _ _).
  - vm_compute. reflexivity.
  - apply not_elem_of_forallb. vm_compute. reflexivity.
Defined.

(** ** Fields of unexpected types *)

(** A record of another subreddit is passed over whatever its other
    fields hold: the subreddit is tested first, so nothing else of the
    record is looked at (source lines 25-26). *)
Theorem other_subreddit_passed_over (json_loads : bytes → completion value)
    (out : string) sf thr (line : bytes) d (w : world) :
  json_loads line = Normal (PyDict d) →
  d !! ustr "subreddit" ≠ Some (PyStr sf) →
  process_line json_loads out sf thr line w = (w, Continue).
Proof.
  intros Hline Hsub. rewrite process_line_record. unfold line_record.
  destruct (bool_decide _); [reflexivity|].
  rewrite Hline. cbn [mbind completion_bind]. rewrite normalize_dict.
  destruct (py_eq_str (field d "subreddit" PyNone) sf) eqn:E; [|reflexivity].
  by apply subreddit_test in E.
Qed.

Lemma other_subreddit_passed_over_witness :
  Json.loads other_subreddit_line = Normal (PyDict (parsed other_subreddit_line))
  ∧ parsed other_subreddit_line !! ustr "subreddit" ≠ Some (PyStr (ustr "climbharder"))
  ∧ process_line Json.loads "out.jsonl" (ustr "climbharder") 20 other_subreddit_line
      example_world
    = (example_world, Continue).
Proof.
  assert (H : Json.loads other_subreddit_line
              = Normal (PyDict (parsed other_subreddit_line))) by (vm_compute; reflexivity).
  assert (H' : parsed other_subreddit_line !! ustr "subreddit"
               ≠ Some (PyStr (ustr "climbharder"))) by (vm_compute; discriminate).
  split; [exact H|]. split; [exact H'|].
  exact (other_subreddit_passed_over Json.loads "out.jsonl" (ustr "climbharder") 20
           other_subreddit_line (parsed other_subreddit_line) example_world H H').
Defined.

(** A record of the target subreddit whose score is not a number (null,
    a string, a list, an object) ends the run: the comparison raises
    [TypeError], which the [except] clause does not catch; nothing is
    written for the line (source lines 27-28). *)
Theorem score_of_wrong_type (json_loads : bytes → completion value)
    (out : string) sf thr (line : bytes) d (w : world) :
  forallb bytes_isspace line = false →
  json_loads line = Normal (PyDict d) →
  d !! ustr "subreddit" = Some (PyStr sf) →
  is_number (field d "score" (PyInt 0)) = false →
  process_line json_loads out sf thr line w = (w, Raise TypeError).
Proof.
  intros Hblank Hline Hsub Hscore. rewrite process_line_record. unfold line_record.
  rewrite bool_decide_eq_false_2.
  2:{ intros E%strip_with_nil. congruence. }
  rewrite Hline. cbn [mbind completion_bind]. rewrite normalize_dict.
  apply subreddit_test in Hsub. rewrite Hsub. cbn [negb].
  by destruct (field d "score" (PyInt 0)).
Qed.

Lemma score_of_wrong_type_witness :
  process_line Json.loads "out.jsonl" (ustr "climbharder") 20 null_score_line example_world
  = (example_world, Raise TypeError).
Proof.
  refine (score_of_wrong_type Json.loads "out.jsonl" (ustr "climbharder") 20
            null_score_line (parsed null_score_line) example_world _ _ _ _);
    vm_compute; reflexivity.
Defined.

(** A record that passed the subreddit and score tests ends the run with
    [AttributeError] when its [body] is not a string, and, if it has a
    [title] key and a long enough body, when its title or its selftext is
    not a string (source lines 30 and 41-44). *)
Theorem text_field_of_wrong_type (json_loads : bytes → completion value)
    (out : string) sf thr (line : bytes) d (w : world) :
  forallb bytes_isspace line = false →
  json_loads line = Normal (PyDict d) →
  d !! ustr "subreddit" = Some (PyStr sf) →
  py_le_int (field d "score" (PyInt 0)) thr = Normal false →
  (is_text (field d "body" (PyStr [])) = false →
   process_line json_loads out sf thr line w = (w, Raise AttributeError))
  ∧ (∀ b, field d "body" (PyStr []) = PyStr b →
          (120 ≤ length (str_strip b))%nat →
          is_Some (d !! ustr "title") →
          is_text (field d "title" (PyStr [])) && is_text (field d "selftext" (PyStr []))
          = false →
          process_line json_loads out sf thr line w = (w, Raise AttributeError)).
Proof.
  intros Hblank Hline Hsub Hscore.
  assert (Hrec : line_record json_loads sf thr line
                 = match normalize sf thr (PyDict d) with
                   | Raise JSONDecodeError => Continue
                   | c => c
                   end).
  { unfold line_record. rewrite bool_decide_eq_false_2.
    2:{ intros E%strip_with_nil. congruence. }
    by rewrite Hline. }
  apply subreddit_test in Hsub.
  split.
  - intros Hbody. rewrite process_line_record, Hrec, normalize_dict, Hsub, Hscore.
    cbn [negb mbind completion_bind].
    by destruct (field d "body" (PyStr [])).
  - intros b Hb Hlen Htitle Htext.
    rewrite process_line_record, Hrec, normalize_dict, Hsub, Hscore, Hb.
    cbn [negb mbind completion_bind py_strip].
    rewrite (proj2 (Nat.ltb_ge _ _) Hlen), bool_decide_eq_true_2 by done.
    destruct (field d "title" (PyStr [])); try reflexivity.
    by destruct (field d "selftext" (PyStr [])).
Qed.

Lemma text_field_of_wrong_type_witness :
  process_line Json.loads "out.jsonl" (ustr "climbharder") 20 numeric_body_line
    example_world
  = (example_world, Raise AttributeError)
  ∧ process_line Json.loads "out.jsonl" (ustr "climbharder") 20 null_title_line
      example_world
    = (example_world, Raise AttributeError).
Proof.
  split.
  - refine (proj1 (text_field_of_wrong_type Json.loads "out.jsonl" (ustr "climbharder") 20
                     numeric_body_line (parsed numeric_body_line) example_world
                     _ _ _ _) _);
      vm_compute; reflexivity.
  - refine (proj2 (text_field_of_wrong_type Json.loads "out.jsonl" (ustr "climbharder") 20
                     null_title_line (parsed null_title_line) example_world
                     _ _ _ _) (ustr long_text) _ _ _ _).
    + vm_compute. reflexivity.
    + vm_compute. reflexivity.
    + vm_compute. reflexivity.
    + vm_compute. reflexivity.
    + vm_compute. reflexivity.
    + vm_compute. lia.
    + eexists. vm_compute. reflexivity.
    + vm_compute. reflexivity.
Defined.

(** ** The shape of the output file *)

Lemma hex_digit_printable x : is_printable (hex_digit (N.land x 15)).
Proof.
  assert (N.land x 15 < 16)%N.
  { change 15%N with (N.ones 4). rewrite N.land_ones. by apply N.mod_lt. }
  unfold hex_digit, is_printable. destruct (N.land x 15 <? 10)%N; lia.
Qed.

Lemma u_escape_printable c : Forall is_printable (u_escape c).
Proof.
  unfold u_escape.
  repeat (constructor; [first [apply hex_digit_printable | unfold is_printable; lia]|]).
  constructor.
Qed.

Lemma ascii_escape_unichar_printable c : Forall is_printable (ascii_escape_unichar c).
Proof.
  unfold ascii_escape_unichar.
  repeat match goal with
         | |- context [if ?b then _ else _] => destruct b eqn:?
         end.
  all: try (apply u_escape_printable).
  all: try (apply Forall_app; split; apply u_escape_printable).
  all: try (repeat constructor; unfold is_printable; lia).
  apply andb_true_iff in Heqb6 as [H1%N.leb_le H2%N.leb_le].
  repeat constructor; unfold is_printable; lia.
Qed.

Lemma printable_literal (s : str) :
  forallb (λ c, (32 <=? c) && (c <=? 126))%N s = true → Forall is_printable s.
Proof.
  intros H. apply Forall_forall. intros c Hc.
  rewrite forallb_forall in H. apply list_elem_of_In, H in Hc.
  apply andb_true_iff in Hc as [H1%N.leb_le H2%N.leb_le]. by split.
Qed.

Lemma encode_basestring_ascii_printable s : Forall is_printable (encode_basestring_ascii s).
Proof.
  unfold encode_basestring_ascii.
  apply Forall_app; split; [by apply printable_literal|].
  apply Forall_app; split; [|by apply printable_literal].
  induction s as [|c s IH]; simpl; [constructor|].
  apply Forall_app; split; [apply ascii_escape_unichar_printable | exact IH].
Qed.

Lemma json_dumps_printable r : Forall is_printable (json_dumps r).
Proof.
  unfold json_dumps.
  apply Forall_app; split; [by apply printable_literal|].
  apply Forall_app; split; [apply encode_basestring_ascii_printable|].
  apply Forall_app; split; [by apply printable_literal|].
  apply Forall_app; split;
    [apply encode_basestring_ascii_printable|by apply printable_literal].
Qed.

Lemma to_N_byte_of_N c : (c < 256)%N → Byte.to_N (byte_of_N c) = c.
Proof.
  intros Hc. unfold byte_of_N. destruct (Byte.of_N c) as [b|] eqn:E; simpl.
  - by apply Byte.to_of_N.
  - apply Byte.of_N_None_iff in E. lia.
Qed.

Lemma bytes_split_cons_line sep (l rest : bytes) :
  sep ∉ l → bytes_split sep (l ++ sep :: rest) = l :: bytes_split sep rest.
Proof.
  induction l as [|b l IH]; intros Hl; simpl.
  - by rewrite (proj2 (byte_eqb_eq sep sep) eq_refl).
  - apply not_elem_of_cons in Hl as [Hb Hl].
    rewrite (proj2 (byte_eqb_neq b sep)) by congruence.
    by rewrite IH.
Qed.

Lemma lines_of_terminated (ls : list bytes) :
  Forall (λ l, x0a ∉ l) ls →
  complete_lines (concat (map (λ l, l ++ [x0a]) ls)) = ls
  ∧ residue (concat (map (λ l, l ++ [x0a]) ls)) = [].
Proof.
  unfold complete_lines, residue.
  induction 1 as [|l ls Hl _ [IH1 IH2]]; [done|].
  cbn [map concat]. rewrite <- app_assoc. cbn [app].
  rewrite bytes_split_cons_line by done.
  destruct (bytes_split x0a (concat (map (λ l0, l0 ++ [x0a]) ls))) as [|x xs] eqn:E.
  { by apply bytes_split_not_nil in E. }
  split; [rewrite <- IH1; reflexivity | exact IH2].
Qed.

Lemma dumped_bytes_printable r :
  Forall (λ b, is_printable (Byte.to_N b)) (map byte_of_N (json_dumps r)).
Proof.
  apply Forall_map. eapply Forall_impl; [apply json_dumps_printable|].
  intros c Hc. simpl. rewrite to_N_byte_of_N; [exact Hc|]. unfold is_printable in Hc. lia.
Qed.

Lemma output_line_split r :
  output_line r = map byte_of_N (json_dumps r) ++ [x0a].
Proof. unfold output_line. by rewrite map_app. Qed.

(** Whatever the records hold, the output file consists of one complete
    line per record, in printable ASCII, and ends with the newline of the
    last one: a newline, a control character or a character outside ASCII
    in a body is written as an escape, so it cannot break a line (source
    line 49). *)
Theorem output_file_lines (rs : list OutputRecord) :
  let out := concat (map output_line rs) in
  complete_lines out = map (λ r, map byte_of_N (json_dumps r)) rs
  ∧ residue out = []
  ∧ Forall (λ b, b = x0a ∨ is_printable (Byte.to_N b)) out.
Proof.
  intros out.
  assert (Hout : out = concat (map (λ l, l ++ [x0a])
                                 (map (λ r, map byte_of_N (json_dumps r)) rs))).
  { unfold out. rewrite map_map. f_equal. apply map_ext. intros r. apply output_line_split. }
  assert (Hfree : Forall (λ l, x0a ∉ l) (map (λ r, map byte_of_N (json_dumps r)) rs)).
  { apply Forall_map, Forall_forall. intros r _ Hin. simpl in Hin.
    pose proof (dumped_bytes_printable r) as Hp. rewrite Forall_forall in Hp.
    apply Hp in Hin. unfold is_printable in Hin. simpl in Hin. lia. }
  destruct (lines_of_terminated _ Hfree) as [H1 H2].
  rewrite Hout. split; [exact H1|]. split; [exact H2|].
  rewrite <- Hout. unfold out. apply Forall_concat, Forall_map, Forall_forall.
  intros r _. simpl. rewrite output_line_split. apply Forall_app. split.
  - eapply Forall_impl; [apply dumped_bytes_printable|]. intros b Hb. by right.
  - constructor; [by left|constructor].
Qed.

(** ** Reading the output back

    The lines of the output file are JSON: [json.loads] gives back the
    record of each line.  The proof follows the text of a record through
    the escapes of [json.dumps] and the string scanner of [json.loads]. *)

Import Json.

Lemma hex_value_hex_digit (d : N) : (d < 16)%N → hex_value (hex_digit d) = Some d.
Proof.
  intros Hd. unfold hex_value, hex_digit, between.
  destruct (N.ltb_spec d 10).
  - rewrite (proj2 (N.leb_le 48 (48 + d))), (proj2 (N.leb_le (48 + d) 57)) by lia.
    simpl. f_equal. lia.
  - rewrite (proj2 (N.leb_gt (87 + d) 57)) by lia. rewrite andb_false_r.
    rewrite (proj2 (N.leb_le 97 (87 + d))), (proj2 (N.leb_le (87 + d) 102)) by lia.
    simpl. f_equal. lia.
Qed.

Lemma nibble x : (N.land x 15 < 16)%N.
Proof. change 15%N with (N.ones 4). rewrite N.land_ones. by apply N.mod_lt. Qed.

Lemma nibbles c :
  (c < 65536)%N →
  (((N.land (N.shiftr c 12) 15 * 16 + N.land (N.shiftr c 8) 15) * 16
    + N.land (N.shiftr c 4) 15) * 16 + N.land c 15 = c)%N.
Proof.
  intros Hc. change 15%N with (N.ones 4). rewrite !N.land_ones, !N.shiftr_div_pow2.
  change (2 ^ 12)%N with 4096%N. change (2 ^ 8)%N with 256%N. change (2 ^ 4)%N with 16%N.
  zify. Z.to_euclidean_division_equations. lia.
Qed.

Lemma hex4_u_escape c tail :
  (c < 65536)%N → hex4 (drop 2 (u_escape c) ++ tail) = Some (c, tail).
Proof.
  intros Hc. unfold u_escape. cbn [drop app]. unfold hex4.
  rewrite !hex_value_hex_digit by apply nibble.
  cbn [mbind option_bind]. by rewrite nibbles.
Qed.

Lemma u_escape_cons c tail :
  u_escape c ++ tail = 92%N :: 117%N :: (drop 2 (u_escape c) ++ tail).
Proof. reflexivity. Qed.

(** A property of the numbers below a bound, checked on each of them. *)
Lemma forall_below (P : N → bool) (n : nat) :
  forallb P (map N.of_nat (seq 0 n)) = true → ∀ c, (c < N.of_nat n)%N → P c = true.
Proof.
  intros H c Hc. rewrite forallb_forall in H. apply H.
  apply in_map_iff. exists (N.to_nat c). split; [apply N2Nat.id|].
  apply in_seq. lia.
Qed.

Lemma lor_surrogate_base (x : N) :
  (x < 1024)%N → N.lor 55296 x = (55296 + x)%N ∧ N.lor 56320 x = (56320 + x)%N.
Proof.
  intros Hx.
  pose proof (forall_below (λ x, (N.lor 55296 x =? 55296 + x)
                                 && (N.lor 56320 x =? 56320 + x))%N 1024
                ltac:(vm_compute; reflexivity) x Hx) as H.
  apply andb_true_iff in H as [H1%N.eqb_eq H2%N.eqb_eq]. by split.
Qed.

(** The two halves of a character above the basic plane. *)
Lemma surrogate_halves c :
  (65536 ≤ c < 1114112)%N →
  let w := (c - 65536)%N in
  let hi := N.lor 55296 (N.land (N.shiftr w 10) 1023) in
  let lo := N.lor 56320 (N.land w 1023) in
  (55296 ≤ hi ≤ 56319 ∧ 56320 ≤ lo ≤ 57343
   ∧ 65536 + (hi - 55296) * 1024 + (lo - 56320) = c)%N.
Proof.
  intros Hc v hi lo.
  assert (Hq : (v / 1024 < 1024)%N) by (apply N.Div0.div_lt_upper_bound; unfold v; lia).
  assert (Hr : (v mod 1024 < 1024)%N) by (apply N.mod_lt; lia).
  assert (Hx : (N.land (N.shiftr v 10) 1023 = v / 1024)%N).
  { change 1023%N with (N.ones 10). rewrite N.land_ones, N.shiftr_div_pow2.
    change (2 ^ 10)%N with 1024%N. by apply N.mod_small. }
  assert (Hy : (N.land v 1023 = v mod 1024)%N).
  { change 1023%N with (N.ones 10). by rewrite N.land_ones. }
  assert (Hhi : hi = (55296 + v / 1024)%N).
  { unfold hi. rewrite Hx. by apply lor_surrogate_base. }
  assert (Hlo : lo = (56320 + v mod 1024)%N).
  { unfold lo. rewrite Hy. by apply lor_surrogate_base. }
  rewrite Hhi, Hlo.
  pose proof (N.div_mod v 1024 ltac:(lia)). unfold v in *. lia.
Qed.

Lemma scanstring_ordinary f c rest :
  c ≠ 34%N → c ≠ 92%N → (31 < c)%N →
  scanstring (S f) (c :: rest)
  = ('(t, rest') ← scanstring f rest; Some (c :: t, rest')).
Proof.
  intros H34 H92 H31.
  assert (Hle : (c <=? 31)%N = false) by (apply N.leb_gt; lia).
  cbn [scanstring].
  repeat match goal with
         | |- context [match ?p with xI _ => _ | xO _ => _ | xH => _ end] =>
             is_var p; destruct p
         | |- context [match ?n with N0 => _ | Npos _ => _ end] =>
             is_var n; destruct n
         end;
    try (rewrite Hle; reflexivity); try reflexivity; try congruence; try lia.
  all: try (destruct rest; try (rewrite Hle); reflexivity).
Qed.

Lemma scanstring_u_single f X c rest :
  hex4 X = Some (c, rest) → rest ≠ [] → between 55296 56319 c = false →
  scanstring (S f) (92 :: 117 :: X)%N
  = ('(t, r) ← scanstring f rest; Some (c :: t, r)).
Proof.
  intros HX Hrest Hc. cbn [scanstring]. change (117 =? 117)%N with true. cbv iota.
  rewrite HX. cbn [mbind option_bind]. rewrite bool_decide_eq_false_2 by done.
  rewrite Hc. reflexivity.
Qed.

Lemma scanstring_u_pair f X hi lo X2 rest :
  hex4 X = Some (hi, 92 :: 117 :: X2)%N → hex4 X2 = Some (lo, rest) →
  between 55296 56319 hi = true → between 56320 57343 lo = true →
  scanstring (S f) (92 :: 117 :: X)%N
  = ('(t, r) ← scanstring f rest;
     Some ((65536 + (hi - 55296) * 1024 + (lo - 56320))%N :: t, r)).
Proof.
  intros HX HX2 Hhi Hlo. cbn [scanstring]. change (117 =? 117)%N with true. cbv iota.
  rewrite HX. cbn [mbind option_bind]. rewrite bool_decide_eq_false_2 by done.
  rewrite Hhi, HX2, Hlo. reflexivity.
Qed.

Lemma between_true lo hi c : between lo hi c = true ↔ (lo ≤ c ≤ hi)%N.
Proof. unfold between. rewrite andb_true_iff, !N.leb_le. done. Qed.

Lemma between_false lo hi c : between lo hi c = false ↔ (c < lo ∨ hi < c)%N.
Proof.
  unfold between. rewrite andb_false_iff, !N.leb_gt. done.
Qed.

(** One character, escaped and scanned. *)
Lemma scan_escaped_char f c T :
  is_scalar_value c → T ≠ [] →
  scanstring (S f) (ascii_escape_unichar c ++ T)
  = ('(t, rest) ← scanstring f T; Some (c :: t, rest)).
Proof.
  intros Hc HT. unfold ascii_escape_unichar.
  destruct (N.eqb_spec c 34) as [->|H34]; [reflexivity|].
  destruct (N.eqb_spec c 92) as [->|H92]; [reflexivity|].
  destruct (N.eqb_spec c 10) as [->|H10]; [reflexivity|].
  destruct (N.eqb_spec c 13) as [->|H13]; [reflexivity|].
  destruct (N.eqb_spec c 9) as [->|H9]; [reflexivity|].
  destruct (N.eqb_spec c 8) as [->|H8]; [reflexivity|].
  destruct (N.eqb_spec c 12) as [->|H12]; [reflexivity|].
  destruct ((32 <=? c) && (c <=? 126))%N eqn:Hp.
  - apply andb_true_iff in Hp as [H1%N.leb_le H2%N.leb_le].
    apply scanstring_ordinary; [done|done|lia].
  - destruct (N.ltb_spec c 65536) as [Hlt|Hge].
    + rewrite u_escape_cons.
      apply scanstring_u_single; [by apply hex4_u_escape|done|].
      apply between_false. destruct Hc; lia.
    + assert (Hr : (65536 ≤ c < 1114112)%N) by (destruct Hc; lia).
      destruct (surrogate_halves c Hr) as (Hhi & Hlo & Hjoin).
      cbv zeta. rewrite <- app_assoc, u_escape_cons.
      rewrite (scanstring_u_pair f _
                 (N.lor 55296 (N.land (N.shiftr (c - 65536) 10) 1023))
                 (N.lor 56320 (N.land (c - 65536) 1023))
                 (drop 2 (u_escape (N.lor 56320 (N.land (c - 65536) 1023))) ++ T) T).
      * by rewrite Hjoin.
      * rewrite u_escape_cons. apply hex4_u_escape. lia.
      * apply hex4_u_escape. lia.
      * by apply between_true.
      * by apply between_true.
Qed.

(** A text without surrogates, escaped and scanned, is itself. *)
Lemma scanstring_escaped s :
  Forall is_scalar_value s →
  ∀ fuel rest,
    (length (flat_map ascii_escape_unichar s) < fuel)%nat →
    scanstring fuel (flat_map ascii_escape_unichar s ++ 34%N :: rest) = Some (s, rest).
Proof.
  induction 1 as [|c s Hc _ IH]; intros fuel rest Hfuel.
  - destruct fuel; [simpl in Hfuel; lia|]. reflexivity.
  - cbn [flat_map] in *. rewrite length_app in Hfuel.
    assert (1 ≤ length (ascii_escape_unichar c))%nat.
    { unfold ascii_escape_unichar, u_escape.
      repeat match goal with
             | |- context [if ?b then _ else _] => destruct b
             end; simpl; lia. }
    destruct fuel as [|fuel]; [lia|].
    rewrite <- app_assoc, scan_escaped_char; [|done|by destruct (flat_map _ s)].
    rewrite IH by lia. reflexivity.
Qed.

Lemma utf8_decode_ascii (t : str) : is_ascii t → utf8_decode t = Some t.
Proof.
  induction 1 as [|c t Hc _ IH]; [reflexivity|].
  cbn [utf8_decode]. rewrite (proj2 (N.ltb_lt c 128) Hc), IH. reflexivity.
Qed.

Lemma to_N_byte_of_N_ascii (t : str) :
  is_ascii t → map Byte.to_N (map byte_of_N t) = t.
Proof.
  induction 1 as [|c t Hc _ IH]; [reflexivity|].
  cbn [map]. rewrite IH, to_N_byte_of_N by lia. reflexivity.
Qed.

(** The text [json.dumps] writes for a record. *)
Lemma json_dumps_shape r :
  json_dumps r
  = [123; 34; 98; 111; 100; 121; 34; 58; 32; 34]%N
    ++ flat_map ascii_escape_unichar (body r) ++ [34; 125]%N.
Proof.
  unfold json_dumps, encode_basestring_ascii.
  generalize (flat_map ascii_escape_unichar (body r)). intros E.
  change (flat_map ascii_escape_unichar (ustr "body")) with (ustr "body").
  change (ustr "{") with [123%N]. change (ustr "body") with [98; 111; 100; 121]%N.
  change (ustr ": ") with [58; 32]%N. change (ustr "}") with [125%N].
  cbn [app]. by rewrite <- app_assoc.
Qed.


Lemma scan_once_object (d : nat) (s : str) :
  scan_once (S d) (123%N :: s) = parse_object (scan_once d) s.
Proof. reflexivity. Qed.

Lemma scan_once_string (d : nat) (s : str) :
  scan_once d (34%N :: s)
  = match scanstring (length s) s with
    | Some (t, rest) => Normal (PyStr t, rest)
    | None => Raise JSONDecodeError
    end.
Proof. by destruct d. Qed.

Lemma object_members_step (scan : str → completion (value * str)) (fuel : nat)
    (d : gmap str value) (s : str) :
  object_members scan (S fuel) d (34%N :: s)
  = match scanstring (length s) s with
    | Some (key, s) =>
        match skip_ws s with
        | 58%N :: s =>
            '(v, s) ← scan (skip_ws s);
            let d := <[key := v]> d in
            match skip_ws s with
            | 125%N :: rest => Normal (d, rest)
            | 44%N :: rest => object_members scan fuel d (skip_ws rest)
            | _ => Raise JSONDecodeError
            end
        | _ => Raise JSONDecodeError
        end
    | None => Raise JSONDecodeError
    end.
Proof. reflexivity. Qed.

(** The object parser on the text of an object with the one key
    [body]. *)
Lemma parse_body_object (scan : str → completion (value * str)) (T : str) (text : str) :
  scan (34%N :: T) = Normal (PyStr text, [125%N]) →
  parse_object scan ([34; 98; 111; 100; 121; 34; 58; 32; 34]%N ++ T)
  = Normal (PyDict (body_dict text), []).
Proof.
  intros HT. unfold parse_object.
  change (skip_ws ([34; 98; 111; 100; 121; 34; 58; 32; 34]%N ++ T))
    with (34%N :: ([98; 111; 100; 121; 34; 58; 32; 34]%N ++ T)).
  cbv iota. rewrite object_members_step.
  assert (Hkey : scanstring (length ([98; 111; 100; 121; 34; 58; 32; 34]%N ++ T))
                   ([98; 111; 100; 121; 34; 58; 32; 34]%N ++ T)
                 = Some (ustr "body", [58; 32; 34]%N ++ T)) by reflexivity.
  rewrite Hkey.
  change (skip_ws ([58; 32; 34]%N ++ T)) with (58%N :: ([32; 34]%N ++ T)).
  cbv iota.
  change (skip_ws ([32; 34]%N ++ T)) with (34%N :: T).
  rewrite HT. cbn [mbind completion_bind].
  change (skip_ws [125%N]) with [125%N]. cbv iota. cbv zeta.
  cbn [mbind completion_bind].
  unfold body_dict. by rewrite insert_empty.
Qed.

(** Every line the script writes is JSON that [json.loads] reads back
    as an object with the one key [body] and the text of the record, as
    long as the text has no surrogate. *)
Lemma decode_ascii (t : str) :
  is_ascii t → detect_encoding t = Utf8 → decode (map byte_of_N t) = Normal t.
Proof.
  intros Ht Henc. unfold decode.
  rewrite to_N_byte_of_N_ascii, Henc, utf8_decode_ascii by done. reflexivity.
Qed.

Lemma bind_Normal {A B} (a : A) (k : A → completion B) : Normal a ≫= k = k a.
Proof. reflexivity. Qed.

Lemma finish_empty (obj : value) :
  (if bool_decide (skip_ws [] = []) then Normal obj else Raise JSONDecodeError) = Normal obj.
Proof. by rewrite bool_decide_eq_true_2. Qed.

Lemma loads_decoded (s : bytes) (t : str) (obj : value) :
  decode s = Normal t →
  scan_once recursion_limit (skip_ws t) = Normal (obj, []) →
  loads s = Normal obj.
Proof.
  intros Hd Hs. unfold loads. rewrite Hd.
  rewrite bind_Normal. rewrite Hs. rewrite bind_Normal.
  apply finish_empty.
Qed.

Lemma skip_ws_brace (s : str) : skip_ws (123%N :: s) = 123%N :: s.
Proof. reflexivity. Qed.

Lemma scan_top_object (s : str) :
  scan_once recursion_limit (skip_ws (123%N :: s))
  = parse_object (scan_once (pred recursion_limit)) s.
Proof. rewrite skip_ws_brace. apply scan_once_object. Qed.

Lemma json_dumps_cons r :
  json_dumps r
  = 123%N :: ([34; 98; 111; 100; 121; 34; 58; 32; 34]%N
              ++ flat_map ascii_escape_unichar (body r) ++ [34; 125]%N).
Proof. by rewrite json_dumps_shape. Qed.

Lemma dumped_record_parses (r : OutputRecord) :
  Forall is_scalar_value (body r) →
  loads (map byte_of_N (json_dumps r)) = Normal (PyDict (body_dict (body r))).
Proof.
  intros Hbody.
  apply (loads_decoded _ (json_dumps r)).
  - apply decode_ascii; [apply json_dumps_ascii|].
    rewrite json_dumps_cons. reflexivity.
  - rewrite json_dumps_cons, scan_top_object.
    apply parse_body_object.
    rewrite scan_once_string.
    rewrite (scanstring_escaped (body r) Hbody _ [125%N]); [reflexivity|].
    rewrite length_app. simpl. lia.
Qed.

Lemma complete_lines_of_output (rs : list OutputRecord) :
  complete_lines (concat (map output_line rs))
  = map (λ r, map byte_of_N (json_dumps r)) rs.
Proof.
  assert (Hout : concat (map output_line rs)
                 = concat (map (λ l, l ++ [x0a])
                             (map (λ r, map byte_of_N (json_dumps r)) rs))).
  { rewrite map_map. f_equal. apply map_ext. intros r. apply output_line_split. }
  rewrite Hout. apply lines_of_terminated.
  apply Forall_map, Forall_forall. intros r _ Hin. simpl in Hin.
  pose proof (dumped_bytes_printable r) as Hp. rewrite Forall_forall in Hp.
  apply Hp in Hin. unfold is_printable in Hin. simpl in Hin. lia.
Qed.

(** The output file read back: when no body holds a surrogate, the
    complete lines of the file parse, in order, to the objects with the
    one key [body] and the text of each record; so what the script writes
    can be read by the reader it was written for, and nothing of a body is
    lost in the escapes (source line 49). *)
Theorem output_file_parses (rs : list OutputRecord) :
  Forall (λ r, Forall is_scalar_value (body r)) rs →
  map loads (complete_lines (concat (map output_line rs)))
  = map (λ r, Normal (PyDict (body_dict (body r)))) rs.
Proof.
  intros Hrs. rewrite complete_lines_of_output, map_map.
  induction Hrs as [|r rs Hr _ IH]; [reflexivity|].
  cbn [map]. by rewrite IH, dumped_record_parses.
Qed.

Lemma output_file_parses_witness :
  let rs := [ {| body := [233; 10; 34; 128512; 127; 92]%N |}; {| body := ustr "T S" |} ] in
  Forall (λ r, Forall is_scalar_value (body r)) rs
  ∧ map loads (complete_lines (concat (map output_line rs)))
    = map (λ r, Normal (PyDict (body_dict (body r)))) rs.
Proof.
  intros rs.
  assert (H : Forall (λ r, Forall is_scalar_value (body r)) rs).
  { repeat constructor; unfold is_scalar_value; lia. }
  split; [exact H|]. exact (output_file_parses rs H).
Defined.
